(** * Pouchy: the public document methods of [src/public.js]

    A shallow embedding of the [publicMethods] table of pouchy 12.0.3
    ([add], [all], [bulkGet], [createIndicies], [destroy], [save],
    [update]) and the properties of the document access and lifecycle
    layer proved about it.

    JavaScript objects are shared and mutated in place by this code, so
    they live in a heap of locations; a value is a primitive or a
    reference.  The PouchDB handle [this.db] is an external collaborator:
    the backend is a parameter, a function of the call made and of the
    heap it is made in to the heap at the time its promise settles and
    the settled outcome.  Every call to it is recorded in a log.

    The methods are modelled as they stand in [publicMethods], before
    [publicMethodFactory] wraps them for the callback convention. *)

From stdpp Require Import gmap strings list fin_maps pretty.
From Stdlib Require Import ZArith.

Local Open Scope Z_scope.
Local Open Scope string_scope.

(** ** JavaScript values, objects and the heap *)

Module Js.

Definition loc := positive.

(** Numbers are modelled by the integers and [NaN]: the only numeric
    constants the code mentions are [0] and [409]. *)
Inductive value :=
  | VUndef
  | VNull
  | VBool (b : bool)
  | VNum (n : Z)
  | VNaN
  | VStr (s : string)
  | VRef (l : loc).

#[global] Instance value_eq_dec : EqDecision value.
Proof. solve_decision. Defined.

#[global] Instance value_inhabited : Inhabited value := populate VUndef.

(** An object is its table of own properties; an array is an object that
    also has elements. *)
Record obj := Obj {
  fields : gmap string value;
  elems : option (list value)
}.

Definition plain (f : gmap string value) : obj := Obj f None.
Definition array (l : list value) : obj := Obj ∅ (Some l).

(** What this layer can throw or reject with.  [Thrown v] is a rejection
    with an arbitrary value, as the backend produces them; [Stuck] is the
    use of a location that the heap does not hold, which no JavaScript
    program can reach. *)
Inductive exn :=
  | TypeError
  | Error (msg : string)
  | ReferenceError (msg : string)
  | Thrown (v : value)
  | Stuck.

Inductive result (A : Type) :=
  | Ok (a : A)
  | Throw (e : exn).
Arguments Ok {A} a.
Arguments Throw {A} e.

(** [ToBoolean] *)
Definition truthy (v : value) : bool :=
  match v with
  | VUndef | VNull | VNaN => false
  | VBool b => b
  | VNum n => negb (Z.eqb n 0)
  | VStr s => negb (String.eqb s "")
  | VRef _ => true
  end.

(** [===] *)
Definition strict_eq (a b : value) : bool :=
  match a, b with
  | VNaN, _ | _, VNaN => false
  | _, _ => bool_decide (a = b)
  end.

(** ** The backend and the world

    [db_call] names the backend methods this layer invokes, with their
    argument.  The argument of [createIndex] is the literal
    [{ index: { fields: ... } }], represented by its list of fields. *)
Inductive db_call :=
  | CallPut (doc : value)
  | CallPost (doc : value)
  | CallAllDocs (opts : value)
  | CallBulkGet (opts : value)
  | CallCreateIndex (fields : list string).

Record world := World {
  heap : gmap loc obj;
  calls : list db_call
}.

(** ** Computations: a state and exception monad

    A statement that throws keeps the mutations made before it. *)
Definition M (A : Type) : Type := world → world * result A.

Definition ret {A} (a : A) : M A := λ w, (w, Ok a).
Definition throw {A} (e : exn) : M A := λ w, (w, Throw e).
Definition bind {A B} (c : M A) (k : A → M B) : M B :=
  λ w, match c w with
       | (w', Ok a) => k a w'
       | (w', Throw e) => (w', Throw e)
       end.

Declare Scope js_scope.
Delimit Scope js_scope with js.
Bind Scope js_scope with M.
Notation "x <- c ;; k" := (bind c (λ x, k))
  (at level 20, c at level 99, k at level 200) : js_scope.
Notation "c ;; k" := (bind c (λ _, k))
  (at level 100, k at level 200, right associativity) : js_scope.
Open Scope js_scope.

Definition backend := db_call → gmap loc obj → gmap loc obj * result value.

(** [this.db.method(arg)], awaited *)
Definition call_db (db : backend) (c : db_call) : M value :=
  λ w, let '(h', r) := db c (heap w) in (World h' (calls w ++ [c])%list, r).

(** An object or array literal: a new location *)
Definition alloc (o : obj) : M value :=
  λ w, let l := fresh (dom (heap w)) in
       (World (<[l := o]> (heap w)) (calls w), Ok (VRef l)).

(** [v.k], for a name [k] that is not an array index *)
Definition get_field (v : value) (k : string) : M value :=
  λ w, match v with
       | VUndef | VNull => (w, Throw TypeError)
       | VRef l =>
           match heap w !! l with
           | Some o =>
               match elems o with
               | Some es =>
                   if String.eqb k "length"
                   then (w, Ok (VNum (Z.of_nat (length es))))
                   else (w, Ok (default VUndef (fields o !! k)))
               | None => (w, Ok (default VUndef (fields o !! k)))
               end
           | None => (w, Throw Stuck)
           end
       | VStr s =>
           if String.eqb k "length"
           then (w, Ok (VNum (Z.of_nat (String.length s))))
           else (w, Ok VUndef)
       | _ => (w, Ok VUndef)
       end.

(** [v.k = x], in strict mode *)
Definition set_field (v : value) (k : string) (x : value) : M unit :=
  λ w, match v with
       | VRef l =>
           match heap w !! l with
           | Some o =>
               (World (<[l := Obj (<[k := x]> (fields o)) (elems o)]> (heap w))
                      (calls w), Ok tt)
           | None => (w, Throw Stuck)
           end
       | _ => (w, Throw TypeError)
       end.

(** [delete v.k] *)
Definition delete_field (v : value) (k : string) : M unit :=
  λ w, match v with
       | VUndef | VNull => (w, Throw TypeError)
       | VRef l =>
           match heap w !! l with
           | Some o =>
               (World (<[l := Obj (delete k (fields o)) (elems o)]> (heap w))
                      (calls w), Ok tt)
           | None => (w, Throw Stuck)
           end
       | _ => (w, Ok tt)
       end.

(** [v.hasOwnProperty(k)].  The method is looked up on the object like any
    other field: an own field named [hasOwnProperty] shadows the inherited
    method, and since no value of the model is a function the call is then a
    [TypeError]. *)
Definition has_own_property (v : value) (k : string) : M bool :=
  λ w, match v with
       | VUndef | VNull => (w, Throw TypeError)
       | VRef l =>
           match heap w !! l with
           | Some o =>
               match fields o !! "hasOwnProperty" with
               | Some _ => (w, Throw TypeError)
               | None => (w, Ok (bool_decide (is_Some (fields o !! k))))
               end
           | None => (w, Throw Stuck)
           end
       | _ => (w, Ok false)
       end.

(** [Array.isArray(v)], with the elements when it is one *)
Definition as_array (v : value) : M (option (list value)) :=
  λ w, match v with
       | VRef l =>
           match heap w !! l with
           | Some o => (w, Ok (elems o))
           | None => (w, Throw Stuck)
           end
       | _ => (w, Ok None)
       end.

(** [arr.map(f)] for a callback that does not touch the array itself *)
Fixpoint mapM {A B} (f : A → M B) (l : list A) : M (list B) :=
  match l with
  | [] => ret []
  | x :: l' => y <- f x ;; ys <- mapM f l' ;; ret (y :: ys)
  end.

(** [arr.reduce(f, init)] *)
Fixpoint foldM {A B} (f : B → A → M B) (r : B) (l : list A) : M B :=
  match l with
  | [] => ret r
  | x :: l' => r' <- f r x ;; foldM f r' l'
  end.

(** [promise.catch(handler)] *)
Definition catch {A} (c : M A) (handler : exn → M A) : M A :=
  λ w, match c w with
       | (w', Throw e) => handler e w'
       | (w', Ok a) => (w', Ok a)
       end.

(** [v[i]] *)
Definition get_elem (v : value) (i : nat) : M value :=
  λ w, match v with
       | VUndef | VNull => (w, Throw TypeError)
       | VRef l =>
           match heap w !! l with
           | Some o =>
               match elems o with
               | Some es => (w, Ok (default VUndef (es !! i)))
               | None => (w, Ok (default VUndef (fields o !! pretty i)))
               end
           | None => (w, Throw Stuck)
           end
       | VStr s =>
           match String.get i s with
           | Some c => (w, Ok (VStr (String c "")))
           | None => (w, Ok VUndef)
           end
       | _ => (w, Ok VUndef)
       end.

(** lodash [get(object, path)]: the path is followed while the value is
    neither [undefined] nor [null], otherwise the result is [undefined]. *)
Inductive path_step := PKey (k : string) | PIdx (i : nat).

Definition get_step (v : value) (s : path_step) : M value :=
  match v with
  | VUndef | VNull => ret VUndef
  | _ => match s with
         | PKey k => get_field v k
         | PIdx i => get_elem v i
         end
  end.

Definition lodash_get (v : value) (path : list path_step) : M value :=
  foldM get_step v path.

(** lodash [uniq] on strings: the first occurrence of each is kept. *)
Fixpoint baseUniq (seen l : list string) : list string :=
  match l with
  | [] => []
  | x :: l' =>
      if bool_decide (x ∈ seen) then baseUniq seen l'
      else x :: baseUniq (x :: seen) l'
  end.

Definition unique (l : list string) : list string := baseUniq [] l.

(** ['' + v].  The conversion is the one of the language on the values
    that [to_string_exact] describes below: the primitives, with integers
    short of 10^21 in absolute value.  A larger number is printed with an
    exponent, an array is joined with commas and an object may have a
    [toString] of its own, which this function does not follow: the
    statements about the text of a message are restricted to the values on
    which it is exact. *)
Definition to_string (v : value) : string :=
  match v with
  | VUndef => "undefined"
  | VNull => "null"
  | VBool true => "true"
  | VBool false => "false"
  | VNum n => pretty n
  | VNaN => "NaN"
  | VStr s => s
  | VRef _ => "[object Object]"
  end.

End Js.

Import Js.

(** ** The CRUD facade: [save], [update], [add] *)

Inductive write_method := Put | Post.

Definition write_call (m : write_method) (doc : value) : db_call :=
  match m with Put => CallPut doc | Post => CallPost doc end.

Section Methods.

Variable db : backend.

(** [doc.hasOwnProperty('_id') && (doc._id || doc._id === 0) ? 'put' : 'post'] *)
Definition save_method (doc : value) : M write_method :=
  own <- has_own_property doc "_id" ;;
  if own then
    id <- get_field doc "_id" ;;
    if truthy id || strict_eq id (VNum 0) then ret Put else ret Post
  else ret Post.

Definition tidySaveResults (doc meta : value) : M value :=
  delete_field meta "status" ;;
  id <- get_field meta "id" ;;
  set_field doc "_id" id ;;
  rev <- get_field meta "rev" ;;
  set_field doc "_rev" rev ;;
  ret doc.

Definition save (doc : value) : M value :=
  method <- save_method doc ;;
  meta <- call_db db (write_call method doc) ;;
  tidySaveResults doc meta.

Definition update (doc : value) : M value :=
  meta <- call_db db (CallPut doc) ;;
  id <- get_field meta "id" ;;
  set_field doc "_id" id ;;
  rev <- get_field meta "rev" ;;
  set_field doc "_rev" rev ;;
  ret doc.

(** [add] applies [save] to its arguments. *)
Definition add (doc : value) : M value := save doc.

(** ** The listing service: [all] *)

(** [new RegExp('^_design/')] *)
Definition designDocRegex (s : string) : bool := String.prefix "_design/" s.

(** [v.match(designDocRegex)], as a truth value: only a string has the
    method. *)
Definition match_design (v : value) : M bool :=
  match v with
  | VStr s => ret (designDocRegex s)
  | _ => throw TypeError
  end.

(** [Object(v)] for a truthy primitive [v], as [defaults] boxes its first
    argument: a string becomes an object with its characters as indexed
    fields and its length, a number or [true] an object without fields. *)
Fixpoint char_fields (i : nat) (s : string) : gmap string value :=
  match s with
  | EmptyString => ∅
  | String c s' => <[pretty i := VStr (String c "")]> (char_fields (S i) s')
  end.

Definition boxed (v : value) : obj :=
  match v with
  | VStr s =>
      plain (<["length" := VNum (Z.of_nat (String.length s))]> (char_fields 0 s))
  | _ => plain ∅
  end.

(** [defaults(opts || {}, { include_docs: true })]: a falsy value is
    replaced by a new empty object, a truthy primitive is boxed. *)
Definition all_defaults (opts : value) : M value :=
  opts <- (match opts with
           | VRef _ => ret opts
           | _ => alloc (if truthy opts then boxed opts else plain ∅)
           end) ;;
  inc <- get_field opts "include_docs" ;;
  (if strict_eq inc VUndef
   then set_field opts "include_docs" (VBool true)
   else ret tt) ;;
  ret opts.

Definition simplifyAllDocSet (opts : value) (r : list value) (v : value)
  : M (list value) :=
  inc <- get_field opts "include_docs" ;;
  doc <- (if truthy inc then get_field v "doc" else ret v) ;;
  inc <- get_field opts "include_docs" ;;
  (if negb (truthy inc) then
     id <- get_field doc "id" ;;
     set_field doc "_id" id ;;
     val <- get_field doc "value" ;;
     rev <- get_field val "rev" ;;
     set_field doc "_rev" rev ;;
     delete_field doc "id" ;;
     delete_field doc "value" ;;
     delete_field doc "key"
   else ret tt) ;;
  idd <- get_field opts "includeDesignDocs" ;;
  if negb (truthy idd) then ret (r ++ [doc])%list
  else
    idd <- get_field opts "includeDesignDocs" ;;
    if truthy idd then
      id <- get_field doc "_id" ;;
      m <- match_design id ;;
      if m then ret (r ++ [doc])%list else ret r
    else ret r.

(** The array that [reduce] builds is returned as the list of its
    elements. *)
Definition handleReceivedDocs (opts docs : value) : M (list value) :=
  rows <- get_field docs "rows" ;;
  vs <- as_array rows ;;
  match vs with
  | Some vs => foldM (simplifyAllDocSet opts) [] vs
  | None => throw TypeError
  end.

Definition all (opts : value) : M (list value) :=
  opts <- all_defaults opts ;;
  docs <- call_db db (CallAllDocs opts) ;;
  handleReceivedDocs opts docs.

(** ** The bulk fetch service: [bulkGet] *)

Definition remapIdRev (doc : value) : M value :=
  _id <- get_field doc "_id" ;;
  (if truthy _id then set_field doc "id" _id else ret tt) ;;
  _rev <- get_field doc "_rev" ;;
  (if truthy _rev then set_field doc "rev" _rev else ret tt) ;;
  delete_field doc "_rev" ;;
  delete_field doc "_id" ;;
  ret doc.

Definition tidyBulkGetDocs (docGroup : value) : M value :=
  doc <- lodash_get docGroup [PKey "docs"; PIdx 0; PKey "ok"] ;;
  if negb (truthy doc) then
    id <- get_field docGroup "id" ;;
    throw (ReferenceError ("doc " ++ to_string id ++ "not found"))
  else ret doc.

Definition mapBulkGetResultsToRoot (r : value) : M (list value) :=
  results <- get_field r "results" ;;
  groups <- as_array results ;;
  match groups with
  | Some groups => mapM tidyBulkGetDocs groups
  | None => throw TypeError
  end.

(** The arrays that [Promise.resolve([])] and [r.results.map] build are
    returned as the list of their elements. *)
Definition bulkGet (opts : value) : M (list value) :=
  if negb (truthy opts) then throw (Error "missing bulkGet opts") else
  isarr <- as_array opts ;;
  opts <- (if isarr is Some _ then alloc (plain {[ "docs" := opts ]})
           else ret opts) ;;
  docs <- get_field opts "docs" ;;
  es <- as_array docs ;;
  match es with
  | None =>
      throw (Error "bulkGet requires array of doc filters. please see couchdb bulkGet")
  | Some es =>
      mapped <- mapM remapIdRev es ;;
      arr <- alloc (array mapped) ;;
      set_field opts "docs" arr ;;
      docs <- get_field opts "docs" ;;
      len <- get_field docs "length" ;;
      if negb (truthy len) then ret []
      else
        r <- call_db db (CallBulkGet opts) ;;
        mapBulkGetResultsToRoot r
  end.

(** ** The index manager: [createIndicies], [createIndex] *)

Inductive indicies_arg :=
  | OneIndex (name : string)
  | ManyIndicies (names : list string).

(** [Array.isArray(indicies) ? indicies : [indicies]] *)
Definition indicies_list (indicies : indicies_arg) : list string :=
  match indicies with
  | ManyIndicies l => l
  | OneIndex s => [s]
  end.

(** [err.status]: the errors this layer builds itself have none. *)
Definition err_status (err : exn) : M value :=
  match err with
  | Thrown v => get_field v "status"
  | Stuck => throw Stuck
  | _ => ret VUndef
  end.

Definition handleFailCreateIndicies (err : exn) : M value :=
  status <- err_status err ;;
  if negb (strict_eq status (VNum 409)) then throw err else ret VUndef.

Definition createIndicies (indicies : indicies_arg) : M value :=
  catch (call_db db (CallCreateIndex (unique (indicies_list indicies))))
        handleFailCreateIndicies.

Definition createIndex (indicies : indicies_arg) : M value :=
  createIndicies indicies.

End Methods.

(** ** The lifecycle coordinator: [destroy]

    [destroy] is about the order of events, so it is modelled on a small
    event loop: promises with their reactions, the queue of promise jobs,
    the later tasks of the loop, and the listeners of the replication
    handle [this.syncEmitter].  The trace records what the collaborators
    see. *)

Module Lifecycle.

Local Close Scope string_scope.

Inductive event :=
  | EvListen     (* syncEmitter.on('complete', ...) *)
  | EvCancel     (* syncEmitter.cancel() *)
  | EvComplete   (* the handle emits 'complete' *)
  | EvDestroy.   (* db.destroy() *)

#[global] Instance event_eq_dec : EqDecision event.
Proof. solve_decision. Defined.

Definition pid := nat.

Inductive callback :=
  | Resolve (p : pid)      (* the resolve function of promise p *)
  | bbPouchyDestroy.

(** What [.then] is given: a function, or a value that is not callable
    (here, a promise). *)
Inductive then_arg :=
  | Fn (cb : callback)
  | NotCallable (p : pid).

Inductive pstate :=
  | Pending (reactions : list (then_arg * pid))
  | Fulfilled.

Inductive task := EmitComplete.

Record loop := Loop {
  promises : list pstate;
  jobs : list (then_arg * pid);
  tasks : list task;
  listeners : list callback;
  trace : list event
}.

Definition init : loop := Loop [] [] [] [] [].

Definition set_promises (f : list pstate → list pstate) (w : loop) : loop :=
  Loop (f (promises w)) (jobs w) (tasks w) (listeners w) (trace w).
Definition set_jobs (f : list (then_arg * pid) → list (then_arg * pid))
    (w : loop) : loop :=
  Loop (promises w) (f (jobs w)) (tasks w) (listeners w) (trace w).
Definition set_tasks (f : list task → list task) (w : loop) : loop :=
  Loop (promises w) (jobs w) (f (tasks w)) (listeners w) (trace w).
Definition add_listener (cb : callback) (w : loop) : loop :=
  Loop (promises w) (jobs w) (tasks w) (listeners w ++ [cb]) (trace w).
Definition log (e : event) (w : loop) : loop :=
  Loop (promises w) (jobs w) (tasks w) (listeners w) (trace w ++ [e]).

Definition new_promise (st : pstate) (w : loop) : pid * loop :=
  (length (promises w), set_promises (λ ps, ps ++ [st]) w).

(** Fulfilling a pending promise queues a job for each of its reactions;
    a settled promise stays as it is. *)
Definition settle (p : pid) (w : loop) : loop :=
  match promises w !! p with
  | Some (Pending rs) =>
      set_jobs (λ js, js ++ rs) (set_promises (λ ps, <[p := Fulfilled]> ps) w)
  | _ => w
  end.

(** [p.then(arg)]: the derived promise, its reaction queued at once when
    [p] is fulfilled already. *)
Definition then_ (p : pid) (arg : then_arg) (w : loop) : pid * loop :=
  let '(d, w) := new_promise (Pending []) w in
  match promises w !! p with
  | Some (Pending rs) =>
      (d, set_promises (λ ps, <[p := Pending (rs ++ [(arg, d)])]> ps) w)
  | Some Fulfilled => (d, set_jobs (λ js, js ++ [(arg, d)]) w)
  | None => (d, w)
  end.

Definition call (cb : callback) (w : loop) : loop :=
  match cb with
  | Resolve p => settle p w
  | bbPouchyDestroy => log EvDestroy w
  end.

(** A promise job.  A [then] argument that is not a function is ignored
    and the derived promise takes the value of the one it derives from
    (Promises/A+ 2.2.1 and 2.2.7.3, which bluebird follows).  The promise
    derived from [bbPouchyDestroy] follows the backend's; it is marked
    fulfilled as soon as the backend was asked. *)
Definition run_job (j : then_arg * pid) (w : loop) : loop :=
  match j with
  | (Fn cb, d) => settle d (call cb w)
  | (NotCallable _, d) => settle d w
  end.

Definition emit_complete (w : loop) : loop :=
  foldl (λ w cb, call cb w) (log EvComplete w) (listeners w).

(** When the replication handle emits [complete] once [cancel()] was
    called: inside the call, in a later task of the loop, or not at all. *)
Inductive emitter :=
  | CompletesInCancel
  | CompletesLater
  | NeverCompletes.

Definition emitter_on (cb : callback) (w : loop) : loop :=
  log EvListen (add_listener cb w).

Definition emitter_cancel (em : emitter) (w : loop) : loop :=
  let w := log EvCancel w in
  match em with
  | CompletesInCancel => emit_complete w
  | CompletesLater => set_tasks (λ ts, ts ++ [EmitComplete]) w
  | NeverCompletes => w
  end.

(** The loop: promise jobs first, then the next task. *)
Fixpoint run (fuel : nat) (w : loop) : loop :=
  match fuel with
  | O => w
  | S n =>
      match jobs w with
      | j :: js => run n (run_job j (set_jobs (λ _, js) w))
      | [] =>
          match tasks w with
          | EmitComplete :: ts => run n (emit_complete (set_tasks (λ _, ts) w))
          | [] => w
          end
      end
  end.

Definition quiescent (w : loop) : Prop := jobs w = [] ∧ tasks w = [].

Record replication_opts := { live : value }.

Record store := {
  syncEmitter : option emitter;
  _replicationOpts : option replication_opts
}.

(** [this._replicationOpts && this._replicationOpts.live] *)
Definition is_live (s : store) : bool :=
  match _replicationOpts s with
  | Some o => truthy (live o)
  | None => false
  end.

Definition destroy (s : store) (w : loop) : pid * loop :=
  let '(chain, w) := new_promise Fulfilled w in
  let '(chain, w) :=
    match syncEmitter s with
    | Some em =>
        let '(chain, w) :=
          if is_live s then
            let '(isCompleteP, w) := new_promise (Pending []) w in
            let w := emitter_on (Resolve isCompleteP) w in
            then_ chain (NotCallable isCompleteP) w
          else (chain, w) in
        (chain, emitter_cancel em w)
    | None => (chain, w)
    end in
  then_ chain (Fn bbPouchyDestroy) w.

(** The events of a call to [destroy] on a fresh loop, run for [fuel]
    steps. *)
Definition destroy_trace (fuel : nat) (s : store) : list event :=
  trace (run fuel (snd (destroy s init))).

(** [e1] occurs in the trace and no [e2] occurs before it. *)
Fixpoint occurs_before (e1 e2 : event) (t : list event) : bool :=
  match t with
  | [] => false
  | e :: t' =>
      if bool_decide (e = e1) then true
      else if bool_decide (e = e2) then false
      else occurs_before e1 e2 t'
  end.

(** A store with a replication session *)
Definition store_of (em : emitter) (lv : value) : store :=
  {| syncEmitter := Some em; _replicationOpts := Some {| live := lv |} |}.

(** [deleteDB]: [this.db.destroy()], at once and whatever the session *)
Definition deleteDB (s : store) (w : loop) : loop := log EvDestroy w.

Definition deleteDB_trace (fuel : nat) (s : store) : list event :=
  trace (run fuel (deleteDB s init)).

(** How many times the event [e] occurs in a trace *)
Definition occurrences (e : event) (t : list event) : nat :=
  count_occ event_eq_dec t e.

End Lifecycle.

(** * Vocabulary of the statements *)

(** The own property [k] of an object, [undefined] when it has none. *)
Definition field (o : obj) (k : string) : value := default VUndef (fields o !! k).

(** ** [save] and [update] *)

(** The guard of [save]: an own [_id] that is truthy or is the number 0. *)
Definition id_is_set (o : obj) : bool :=
  match fields o !! "_id" with
  | Some v => truthy v || bool_decide (v = VNum 0)
  | None => false
  end.

(** The document [o] with the identifier and revision of [meta]. *)
Definition with_id_rev (o meta : obj) : obj :=
  Obj (<["_rev" := field meta "rev"]> (<["_id" := field meta "id"]> (fields o)))
      (elems o).

(** ** [bulkGet]: the request *)

(** What [remapIdRev] leaves of an entry. *)
Definition remapped (o : obj) : obj :=
  let f1 := if truthy (field o "_id")
            then <["id" := field o "_id"]> (fields o) else fields o in
  let f2 := if truthy (field o "_rev")
            then <["rev" := field o "_rev"]> f1 else f1 in
  Obj (delete "_id" (delete "_rev" f2)) (elems o).

Definition remap_one (h : gmap loc obj) (l : loc) : gmap loc obj :=
  match h !! l with
  | Some o => <[l := remapped o]> h
  | None => h
  end.

Definition remap_all (ls : list loc) (h : gmap loc obj) : gmap loc obj :=
  foldl remap_one h ls.

(** The heap in which [bulkGet] reaches its test of [opts.docs.length],
    given an array of references: [p] is the new [{ docs: ... }] and [q]
    the array that [map] built. *)
Definition request_heap (h : gmap loc obj) (ls : list loc) (p q : loc)
  : gmap loc obj :=
  <[p := plain {[ "docs" := VRef q ]}]>
    (<[q := array (VRef <$> ls)]> (remap_all ls h)).

(** The two forms of a batch: an array of the objects [ls], or an object
    whose [docs] is such an array and which is not one of them. *)
Definition batch_request (h : gmap loc obj) (opts : value) (ls : list loc)
  : Prop :=
  (∀ l, l ∈ ls → is_Some (h !! l)) ∧
  ((∃ a oa, opts = VRef a ∧ h !! a = Some oa ∧ elems oa = Some (VRef <$> ls))
   ∨ (∃ p op a oa, opts = VRef p ∧ h !! p = Some op ∧ elems op = None ∧
        fields op !! "docs" = Some (VRef a) ∧
        h !! a = Some oa ∧ elems oa = Some (VRef <$> ls) ∧ p ∉ ls)).

(** The heap [hb] of the request, out of the heap [h] of the call: the
    entries are remapped, [q] is the array that [map] built and [p] the
    object whose [docs] it has become; the rest is as it was. *)
Definition sent_request (h hb : gmap loc obj) (ls : list loc) (p q : loc)
  : Prop :=
  (∃ o, hb !! p = Some o ∧ fields o !! "docs" = Some (VRef q))
  ∧ hb !! q = Some (array (VRef <$> ls))
  ∧ h !! q = None
  ∧ (∀ l, l ∈ ls → hb !! l = remapped <$> h !! l)
  ∧ (∀ l, l ∉ ls → l ≠ p → l ≠ q → hb !! l = h !! l).

(** ** [bulkGet]: the response *)







(** ** [createIndicies] *)

(** [err.status] of a rejection, when reading it does not itself throw *)
Definition rejection_status (h : gmap loc obj) (e : exn) : option value :=
  match e with
  | Thrown (VRef l) => o ← h !! l; Some (field o "status")
  | Thrown VUndef | Thrown VNull | Stuck => None
  | _ => Some VUndef
  end.

(** A backend that answers every index creation with a success or with
    a rejection whose [status] is 409 *)
Definition creates_or_conflicts (db : backend) : Prop :=
  ∀ fs h, ∃ h',
    (∃ v, db (CallCreateIndex fs) h = (h', Ok v)) ∨
    (∃ e, db (CallCreateIndex fs) h = (h', Throw e) ∧
          rejection_status h' e = Some (VNum 409)).

(** ** [all] *)

(** A row of [allDocs] without bodies: nothing but [id], [key] and
    [value], the latter an object of the heap [h] that is not itself one
    of the rows [ls]. *)
Definition only_stub_fields (ro : obj) : Prop :=
  delete "key" (delete "value" (delete "id" (fields ro))) = ∅.

Definition stub_row (h : gmap loc obj) (ls : list loc) (l : loc)
    (ro vo : obj) : Prop :=
  h !! l = Some ro ∧ only_stub_fields ro ∧
  (∃ vl, fields ro !! "value" = Some (VRef vl) ∧ (vl ∉ ls) ∧ h !! vl = Some vo).

(** The canonical form of the stub [ro] whose [value] is [vo] *)
Definition normalized (ro vo : obj) : obj :=
  Obj {[ "_id" := field ro "id"; "_rev" := field vo "rev" ]} (elems ro).

(** Whether [simplifyAllDocSet] keeps the stub at [l], under the options
    [oo] *)
Definition row_kept (h : gmap loc obj) (oo : obj) (l : loc) : bool :=
  if truthy (field oo "includeDesignDocs") then
    match h !! l with
    | Some ro =>
        match field ro "id" with
        | VStr s => designDocRegex s
        | _ => false
        end
    | None => false
    end
  else true.

(** The body of the row at [l], and whether [simplifyAllDocSet] keeps
    the body [d], under the options [oo] *)
Definition row_doc (h : gmap loc obj) (l : loc) : value :=
  match h !! l with
  | Some ro => field ro "doc"
  | None => VUndef
  end.

Definition doc_kept (h : gmap loc obj) (oo : obj) (d : value) : bool :=
  if truthy (field oo "includeDesignDocs") then
    match d with
    | VRef dl =>
        match h !! dl with
        | Some dobj =>
            match field dobj "_id" with
            | VStr s => designDocRegex s
            | _ => false
            end
        | None => false
        end
    | _ => false
    end
  else true.

(** The body [d] is an object whose [_id] is a string. *)
Definition has_string_id (h : gmap loc obj) (d : value) : Prop :=
  ∃ dl dobj s, d = VRef dl ∧ h !! dl = Some dobj ∧ field dobj "_id" = VStr s.

(** * Concrete stores and backends *)

(** Documents to save: one with no identifier, one whose identifier is
    the empty string, one whose identifier is zero *)
Definition peanut_world : world :=
  World {[ 1%positive := plain {[ "peanut" := VStr "butter" ]} ]} [].

Definition doc_with_empty_id : world :=
  World {[ 1%positive := plain {[ "_id" := VStr "" ]} ]} [].

Definition doc_with_zero_id : world :=
  World {[ 1%positive := plain {[ "_id" := VNum 0 ]} ]} [].

(** A backend that acknowledges every write with the same metadata
    object, held at location 2. *)
Definition ack_meta : obj :=
  plain {[ "ok" := VBool true; "id" := VStr "x"; "rev" := VStr "1-a" ]}.

Definition ack_backend : backend :=
  λ _ h, (<[ 2%positive := ack_meta ]> h, Ok (VRef 2%positive)).

(** A backend whose every call settles with the object at location 10. *)
Definition canned_backend : backend := λ _ h, (h, Ok (VRef 10%positive)).

(** A backend on which the index exists already: every call is rejected
    with a conflict. *)
Definition conflict_error : obj :=
  plain {[ "status" := VNum 409; "name" := VStr "conflict" ]}.

Definition conflict_backend : backend :=
  λ _ h, (<[ 5%positive := conflict_error ]> h, Throw (Thrown (VRef 5%positive))).

(** An empty batch *)
Definition empty_batch_world : world := World {[ 1%positive := array [] ]} [].

(** A request for [a] at two revisions, and the response of the backend
    to it: one group, whose first entry is an error and whose second
    holds the document. *)
Definition two_revs_heap : gmap loc obj :=
  list_to_map
    [ (1%positive, array [VRef 2%positive; VRef 3%positive]);
      (2%positive, plain {[ "_id" := VStr "a"; "_rev" := VStr "1-gone" ]});
      (3%positive, plain {[ "_id" := VStr "a"; "_rev" := VStr "2-b" ]});
      (10%positive, plain {[ "results" := VRef 11%positive ]});
      (11%positive, array [VRef 12%positive]);
      (12%positive, plain {[ "id" := VStr "a"; "docs" := VRef 13%positive ]});
      (13%positive, array [VRef 14%positive; VRef 15%positive]);
      (14%positive, plain {[ "error" := VRef 17%positive ]});
      (15%positive, plain {[ "ok" := VRef 16%positive ]});
      (16%positive, plain {[ "_id" := VStr "a"; "_rev" := VStr "2-b" ]});
      (17%positive, plain {[ "status" := VNum 404 ]}) ].

Definition two_revs_world : world := World two_revs_heap [].

(** A request for [a] given as [{ docs: [...] }], and the response of
    the backend to it: one group, whose only entry holds the document. *)
Definition found_heap : gmap loc obj :=
  list_to_map
    [ (1%positive, plain {[ "docs" := VRef 2%positive ]});
      (2%positive, array [VRef 3%positive]);
      (3%positive, plain {[ "_id" := VStr "a"; "_rev" := VStr "" ]});
      (10%positive, plain {[ "results" := VRef 11%positive ]});
      (11%positive, array [VRef 12%positive]);
      (12%positive, plain {[ "id" := VStr "a"; "docs" := VRef 13%positive ]});
      (13%positive, array [VRef 15%positive]);
      (15%positive, plain {[ "ok" := VRef 16%positive ]});
      (16%positive, plain {[ "_id" := VStr "a"; "_rev" := VStr "2-b" ]}) ].

Definition found_world : world := World found_heap [].

(** A store that holds an index (a design document) and a document [a],
    as [allDocs] reports it, with the bodies of the documents. *)
Definition listing_heap : gmap loc obj :=
  list_to_map
    [ (10%positive, plain {[ "total_rows" := VNum 2; "offset" := VNum 0;
                             "rows" := VRef 11%positive ]});
      (11%positive, array [VRef 12%positive; VRef 13%positive]);
      (12%positive, plain {[ "id" := VStr "_design/idx-1";
                             "key" := VStr "_design/idx-1";
                             "value" := VRef 16%positive;
                             "doc" := VRef 14%positive ]});
      (13%positive, plain {[ "id" := VStr "a"; "key" := VStr "a";
                             "value" := VRef 17%positive;
                             "doc" := VRef 15%positive ]});
      (14%positive, plain {[ "_id" := VStr "_design/idx-1";
                             "_rev" := VStr "1-d";
                             "language" := VStr "query" ]});
      (15%positive, plain {[ "_id" := VStr "a"; "_rev" := VStr "1-a";
                             "data" := VStr "a" ]});
      (16%positive, plain {[ "rev" := VStr "1-d" ]});
      (17%positive, plain {[ "rev" := VStr "1-a" ]}) ].

Definition listing_world : world := World listing_heap [].

(** The same store as [allDocs] reports it without bodies, and the
    options [{ include_docs: false }] at location 20. *)
Definition stub_row_design : obj :=
  plain {[ "id" := VStr "_design/idx-1"; "key" := VStr "_design/idx-1";
           "value" := VRef 16%positive ]}.

Definition stub_row_a : obj :=
  plain {[ "id" := VStr "a"; "key" := VStr "a"; "value" := VRef 17%positive ]}.

Definition no_docs_opts : obj := plain {[ "include_docs" := VBool false ]}.

Definition stub_heap : gmap loc obj :=
  list_to_map
    [ (10%positive, plain {[ "total_rows" := VNum 2; "offset" := VNum 0;
                             "rows" := VRef 11%positive ]});
      (11%positive, array [VRef 12%positive; VRef 13%positive]);
      (12%positive, stub_row_design);
      (13%positive, stub_row_a);
      (16%positive, plain {[ "rev" := VStr "1-d" ]});
      (17%positive, plain {[ "rev" := VStr "1-a" ]});
      (20%positive, no_docs_opts) ].

Definition stub_world : world := World stub_heap [].

(** * Vocabulary of the further properties *)

(** A computation that does not contact the backend *)
Definition quiet {A} (c : M A) : Prop := ∀ w, calls (c w).1 = calls w.

(** The log [after] is the log [before], with at most one more call, of
    the kind [mine]. *)
Definition one_call_at_most (mine : db_call → Prop)
    (before after : list db_call) : Prop :=
  after = before ∨ ∃ c, mine c ∧ after = (before ++ [c])%list.

(** [v] is not an array of the heap [h]: a primitive, or an object that
    has no elements. *)
Definition not_an_array (h : gmap loc obj) (v : value) : Prop :=
  match v with
  | VRef l => ∃ o, h !! l = Some o ∧ elems o = None
  | _ => True
  end.


(** The options object [oo] once [defaults] has been applied to it *)
Definition defaulted (oo : obj) : obj :=
  if bool_decide (field oo "include_docs" = VUndef)
  then Obj (<["include_docs" := VBool true]> (fields oo)) (elems oo)
  else oo.

(** The body [d] is a design document of the heap [h]. *)
Definition design_body (h : gmap loc obj) (d : value) : Prop :=
  ∃ dl dobj s, d = VRef dl ∧ h !! dl = Some dobj ∧
    field dobj "_id" = VStr s ∧ designDocRegex s = true.


(** The listing of [listing_heap] once [all()] has made its options
    object, at location 18 *)
Definition listing_defaulted : world :=
  World (<[ 18%positive := plain {[ "include_docs" := VBool true ]} ]> listing_heap)
        [].

(** A listing without bodies whose second row reports an error and has
    no [value], and the options [{ include_docs: false }] at location 20 *)
Definition error_row : obj :=
  plain {[ "key" := VStr "zz"; "error" := VStr "not_found" ]}.

Definition error_row_heap : gmap loc obj :=
  list_to_map
    [ (10%positive, plain {[ "total_rows" := VNum 2; "offset" := VNum 0;
                             "rows" := VRef 11%positive ]});
      (11%positive, array [VRef 12%positive; VRef 13%positive]);
      (12%positive, stub_row_a);
      (13%positive, error_row);
      (17%positive, plain {[ "rev" := VStr "1-a" ]});
      (20%positive, no_docs_opts) ].

Definition error_row_world : world := World error_row_heap [].

(** A batch whose second entry is [null] *)
Definition null_entry_world : world :=
  World (list_to_map
           [ (1%positive, array [VRef 2%positive; VNull]);
             (2%positive, plain {[ "_id" := VStr "a" ]}) ]) [].

(** A listing with bodies whose second row reports an error and has no
    body, and the options [{ include_docs: true }] at location 18 *)
Definition missing_body_world : world :=
  World (list_to_map
           [ (10%positive, plain {[ "rows" := VRef 11%positive ]});
             (11%positive, array [VRef 12%positive; VRef 13%positive]);
             (12%positive, plain {[ "id" := VStr "a"; "key" := VStr "a";
                                    "value" := VRef 17%positive;
                                    "doc" := VRef 15%positive ]});
             (13%positive, error_row);
             (15%positive, plain {[ "_id" := VStr "a"; "_rev" := VStr "1-a" ]});
             (17%positive, plain {[ "rev" := VStr "1-a" ]});
             (18%positive, plain {[ "include_docs" := VBool true ]}) ]) [].

(** A batch of one entry written with the backend's own names *)
Definition native_batch_world : world :=
  World (list_to_map
           [ (1%positive, array [VRef 2%positive]);
             (2%positive, plain {[ "id" := VStr "n"; "rev" := VStr "1-n" ]}) ])
        [].

(** * Properties *)

(** ** Reading and writing the heap *)

Lemma get_field_obj w l o k :
  heap w !! l = Some o → k ≠ "length" →
  get_field (VRef l) k w = (w, Ok (field o k)).
Proof.
  intros Hl Hk. unfold get_field, field. rewrite Hl.
  destruct (elems o); [|done].
  destruct (String.eqb_spec k "length"); [done|done].
Qed.

Lemma set_field_obj w l o k x :
  heap w !! l = Some o →
  set_field (VRef l) k x w =
    (World (<[l := Obj (<[k := x]> (fields o)) (elems o)]> (heap w)) (calls w), Ok tt).
Proof. intros Hl. unfold set_field. by rewrite Hl. Qed.

Lemma delete_field_obj w l o k :
  heap w !! l = Some o →
  delete_field (VRef l) k w =
    (World (<[l := Obj (delete k (fields o)) (elems o)]> (heap w)) (calls w), Ok tt).
Proof. intros Hl. unfold delete_field. by rewrite Hl. Qed.

Lemma bind_ok {A B} (c : M A) (k : A → M B) w w' a :
  c w = (w', Ok a) → bind c k w = k a w'.
Proof. intros H. unfold bind. by rewrite H. Qed.

Lemma bind_throw {A B} (c : M A) (k : A → M B) w w' e :
  c w = (w', Throw e) → bind c k w = (w', Throw e).
Proof. intros H. unfold bind. by rewrite H. Qed.

(** ** [save]: which write is performed *)

Lemma strict_eq_zero v : strict_eq v (VNum 0) = bool_decide (v = VNum 0).
Proof. by destruct v. Qed.

Lemma save_method_obj w l o :
  heap w !! l = Some o → fields o !! "hasOwnProperty" = None →
  save_method (VRef l) w = (w, Ok (if id_is_set o then Put else Post)).
Proof.
  intros Hl Hown. unfold save_method, has_own_property, bind. rewrite Hl, Hown.
  unfold id_is_set.
  destruct (fields o !! "_id") as [v|] eqn:Hid.
  - rewrite bool_decide_eq_true_2 by eauto.
    rewrite (get_field_obj w l o) by done.
    unfold field. rewrite Hid. simpl. rewrite strict_eq_zero.
    by destruct (truthy v || bool_decide (v = VNum 0)).
  - rewrite bool_decide_eq_false_2; [done|]. by intros [? ?].
Qed.

(** An own field named [hasOwnProperty] shadows the method that [save]
    calls on the document: [save] then fails before it contacts the
    backend. *)
Lemma save_shadowed_method (db : backend) w l o :
  heap w !! l = Some o → is_Some (fields o !! "hasOwnProperty") →
  save db (VRef l) w = (w, Throw TypeError).
Proof.
  intros Hl [x Hx]. unfold save. apply bind_throw.
  unfold save_method. apply bind_throw.
  unfold has_own_property. by rewrite Hl, Hx.
Qed.

(** The heap primitives never contact the backend. *)
Lemma get_field_world v k w : (get_field v k w).1 = w.
Proof. unfold get_field. by repeat case_match. Qed.

Lemma set_field_calls v k x w : calls (set_field v k x w).1 = calls w.
Proof. unfold set_field. by repeat case_match. Qed.

Lemma delete_field_calls v k w : calls (delete_field v k w).1 = calls w.
Proof. unfold delete_field. by repeat case_match. Qed.

Lemma bind_calls {A B} (c : M A) (k : A → M B) w :
  calls (c w).1 = calls w →
  (∀ a w', calls (k a w').1 = calls w') →
  calls (bind c k w).1 = calls w.
Proof.
  intros Hc Hk. unfold bind. destruct (c w) as [w' [a|e]]; simpl in *.
  - by rewrite Hk.
  - done.
Qed.

Lemma get_field_calls v k w : calls (get_field v k w).1 = calls w.
Proof. by rewrite get_field_world. Qed.

Lemma tidySaveResults_calls doc meta w :
  calls (tidySaveResults doc meta w).1 = calls w.
Proof.
  unfold tidySaveResults.
  repeat (apply bind_calls; intros;
          [first [apply delete_field_calls | apply get_field_calls
                 | apply set_field_calls] |]).
  done.
Qed.

(** C2, as amended: [save] on an object that has no field of its own named
    [hasOwnProperty] performs exactly one backend write; it is a [put] when
    the object has an own [_id] that is truthy or is the number 0, and a
    [post] otherwise, that is when [_id] is absent or present with another
    falsy value such as the empty string. *)
Theorem save_put_iff_id_set (db : backend) (w : world) (l : loc) (o : obj) :
  heap w !! l = Some o → fields o !! "hasOwnProperty" = None →
  save_method (VRef l) w = (w, Ok (if id_is_set o then Put else Post)) ∧
  ∃ w' r, save db (VRef l) w = (w', r) ∧
    calls w' =
      (calls w ++ [write_call (if id_is_set o then Put else Post) (VRef l)])%list.
Proof.
  intros Hl Hown. split; [by apply save_method_obj|].
  unfold save. rewrite (bind_ok _ _ _ _ _ (save_method_obj w l o Hl Hown)).
  set (c := write_call _ _).
  unfold bind at 1, call_db.
  destruct (db c (heap w)) as [h1 [meta|e]] eqn:Hdb.
  - eexists _, _. split; [apply surjective_pairing|].
    by rewrite tidySaveResults_calls.
  - by eexists _, _.
Qed.

Lemma save_put_iff_id_set_witness :
  heap doc_with_zero_id !! 1%positive = Some (plain {[ "_id" := VNum 0 ]}) ∧
  ∃ w' r, save ack_backend (VRef 1%positive) doc_with_zero_id = (w', r) ∧
    calls w' = [CallPut (VRef 1%positive)].
Proof.
  split; [reflexivity|].
  destruct (save_put_iff_id_set ack_backend doc_with_zero_id 1%positive
              (plain {[ "_id" := VNum 0 ]})) as [_ H];
    [reflexivity|reflexivity|].
  exact H.
Defined.

(** C2, as stated, fails: a document whose own [_id] is the empty string
    carries an identifier field, yet [save] posts it. *)
Lemma save_empty_id_is_posted :
  ¬ (∀ (db : backend) (w : world) (l : loc) (o : obj),
       heap w !! l = Some o → is_Some (fields o !! "_id") →
       ∃ w' r, save db (VRef l) w = (w', r) ∧
         calls w' = (calls w ++ [CallPut (VRef l)])%list).
Proof.
  intros H.
  destruct (H ack_backend doc_with_empty_id 1%positive
              (plain {[ "_id" := VStr "" ]})) as (w' & r & Hs & Hc).
  - reflexivity.
  - by eexists.
  - vm_compute in Hs. injection Hs as <- <-. vm_compute in Hc. discriminate.
Qed.

(** ** [save] and [update]: the caller's document is updated in place *)

Lemma update_in_place (db : backend) w d m h1 od om :
  db (CallPut (VRef d)) (heap w) = (h1, Ok (VRef m)) →
  h1 !! d = Some od → h1 !! m = Some om →
  update db (VRef d) w =
    (World (<[d := with_id_rev od om]> h1) (calls w ++ [CallPut (VRef d)])%list,
     Ok (VRef d)).
Proof.
  intros Hdb Hd Hm. unfold update.
  unfold bind at 1, call_db. rewrite Hdb.
  set (w1 := World h1 _).
  rewrite (bind_ok _ _ w1 w1 (field om "id")) by by apply get_field_obj.
  rewrite (bind_ok _ _ _ _ _ (set_field_obj w1 d od _ _ Hd)).
  set (w2 := World _ _).
  assert (get_field (VRef m) "rev" w2 = (w2, Ok (field om "rev"))) as Hrev.
  { destruct (decide (m = d)) as [->|Hne].
    - rewrite (get_field_obj w2 d (Obj (<["_id" := field om "id"]> (fields od)) (elems od)))
        by (done || apply lookup_insert_eq).
      unfold field; simpl. rewrite lookup_insert_ne by done. congruence.
    - apply get_field_obj; [|done]. simpl. by rewrite lookup_insert_ne. }
  rewrite (bind_ok _ _ _ _ _ Hrev).
  erewrite bind_ok; last (apply set_field_obj; apply lookup_insert_eq).
  unfold ret, with_id_rev. simpl. by rewrite insert_insert_eq.
Qed.

Lemma tidySaveResults_in_place w d m od om :
  heap w !! d = Some od → heap w !! m = Some om → m ≠ d →
  tidySaveResults (VRef d) (VRef m) w =
    (World (<[d := with_id_rev od om]>
              (<[m := Obj (delete "status" (fields om)) (elems om)]> (heap w)))
           (calls w),
     Ok (VRef d)).
Proof.
  intros Hd Hm Hne. unfold tidySaveResults.
  rewrite (bind_ok _ _ _ _ _ (delete_field_obj w m om _ Hm)).
  set (om' := Obj _ _). set (w1 := World _ _).
  assert (heap w1 !! m = Some om') as Hm1 by apply lookup_insert_eq.
  assert (heap w1 !! d = Some od) as Hd1 by (simpl; by rewrite lookup_insert_ne).
  rewrite (bind_ok _ _ w1 w1 (field om "id")).
  2:{ rewrite (get_field_obj w1 m om') by done.
      unfold field, om'; simpl. by rewrite lookup_delete_ne. }
  rewrite (bind_ok _ _ _ _ _ (set_field_obj w1 d od _ _ Hd1)).
  set (w2 := World _ _).
  rewrite (bind_ok _ _ w2 w2 (field om "rev")).
  2:{ rewrite (get_field_obj w2 m om'); [|simpl; by rewrite lookup_insert_ne|done].
      unfold field, om'; simpl. by rewrite lookup_delete_ne. }
  erewrite bind_ok; last (apply set_field_obj; apply lookup_insert_eq).
  unfold ret, with_id_rev. simpl. by rewrite insert_insert_eq.
Qed.

(** C8: once the backend write has settled with a metadata object,
    [save] and [update] return the very reference they were given, and
    the object behind it differs from what it was when the write settled
    only in [_id] and [_rev], which hold the metadata's [id] and [rev].
    [save] deletes [status] from the metadata object, which the backend
    allocates apart from the document; the document given to [save] has no
    field of its own named [hasOwnProperty], so that [save] reaches the
    backend. *)
Theorem save_update_mutate_in_place (db : backend) (w : world) (d m : loc)
    (h1 : gmap loc obj) (od om : obj) :
  h1 !! d = Some od → h1 !! m = Some om →
  (db (CallPut (VRef d)) (heap w) = (h1, Ok (VRef m)) →
   update db (VRef d) w =
     (World (<[d := with_id_rev od om]> h1)
            (calls w ++ [CallPut (VRef d)])%list,
      Ok (VRef d)))
  ∧ (∀ o0, heap w !! d = Some o0 → fields o0 !! "hasOwnProperty" = None →
     m ≠ d →
     let c := write_call (if id_is_set o0 then Put else Post) (VRef d) in
     db c (heap w) = (h1, Ok (VRef m)) →
     save db (VRef d) w =
       (World (<[d := with_id_rev od om]>
                 (<[m := Obj (delete "status" (fields om)) (elems om)]> h1))
              (calls w ++ [c])%list,
        Ok (VRef d)))
  ∧ (∀ k, k ≠ "_id" → k ≠ "_rev" →
     fields (with_id_rev od om) !! k = fields od !! k)
  ∧ fields (with_id_rev od om) !! "_id" = Some (field om "id")
  ∧ fields (with_id_rev od om) !! "_rev" = Some (field om "rev").
Proof.
  intros Hd Hm. repeat split.
  - intros Hdb. by eapply update_in_place.
  - intros o0 Hd0 Hown Hne c Hdb. unfold save.
    rewrite (bind_ok _ _ _ _ _ (save_method_obj w d o0 Hd0 Hown)).
    unfold bind at 1, call_db. fold c. rewrite Hdb.
    by rewrite (tidySaveResults_in_place _ d m od om).
  - intros k Hid Hrev. unfold with_id_rev; simpl.
    by rewrite !lookup_insert_ne.
  - unfold with_id_rev; simpl. rewrite lookup_insert_ne by done.
    apply lookup_insert_eq.
  - unfold with_id_rev; simpl. apply lookup_insert_eq.
Qed.

(** ** [bulkGet]: the request *)

Lemma remapIdRev_obj w l o :
  heap w !! l = Some o →
  remapIdRev (VRef l) w =
    (World (<[l := remapped o]> (heap w)) (calls w), Ok (VRef l)).
Proof.
  intros Hl. unfold remapIdRev.
  rewrite (bind_ok _ _ w w (field o "_id")) by by apply get_field_obj.
  unfold remapped.
  destruct (truthy (field o "_id")) eqn:Hid.
  - rewrite (bind_ok _ _ _ _ _ (set_field_obj w l o _ _ Hl)).
    set (w1 := World _ _).
    rewrite (bind_ok _ _ w1 w1 (field o "_rev")).
    2:{ erewrite get_field_obj; [|apply lookup_insert_eq|done].
        unfold field; simpl. by rewrite lookup_insert_ne. }
    destruct (truthy (field o "_rev")) eqn:Hrev.
    + erewrite bind_ok; last (apply set_field_obj; apply lookup_insert_eq).
      erewrite bind_ok; last (apply delete_field_obj; apply lookup_insert_eq).
      erewrite bind_ok; last (apply delete_field_obj; apply lookup_insert_eq).
      unfold ret; simpl. by rewrite !insert_insert_eq.
    + rewrite (bind_ok _ _ w1 w1 tt) by done.
      erewrite bind_ok; last (apply delete_field_obj; apply lookup_insert_eq).
      erewrite bind_ok; last (apply delete_field_obj; apply lookup_insert_eq).
      unfold ret; simpl. by rewrite !insert_insert_eq.
  - rewrite (bind_ok _ _ w w tt) by done.
    rewrite (bind_ok _ _ w w (field o "_rev")) by by apply get_field_obj.
    destruct (truthy (field o "_rev")) eqn:Hrev.
    + rewrite (bind_ok _ _ _ _ _ (set_field_obj w l o _ _ Hl)).
      erewrite bind_ok; last (apply delete_field_obj; apply lookup_insert_eq).
      erewrite bind_ok; last (apply delete_field_obj; apply lookup_insert_eq).
      unfold ret; simpl. by rewrite !insert_insert_eq.
    + rewrite (bind_ok _ _ w w tt) by done.
      rewrite (bind_ok _ _ _ _ _ (delete_field_obj w l o _ Hl)).
      erewrite bind_ok; last (apply delete_field_obj; apply lookup_insert_eq).
      unfold ret; simpl. by rewrite !insert_insert_eq.
Qed.

Lemma mapM_remapIdRev ls : ∀ w,
  (∀ l, l ∈ ls → is_Some (heap w !! l)) →
  mapM remapIdRev (VRef <$> ls) w =
    (World (remap_all ls (heap w)) (calls w), Ok (VRef <$> ls)).
Proof.
  induction ls as [|l ls IH]; intros w Hin; simpl.
  - by destruct w.
  - destruct (Hin l) as [o Ho]; [left|].
    rewrite (bind_ok _ _ _ _ _ (remapIdRev_obj w l o Ho)).
    erewrite bind_ok; last apply IH.
    + unfold ret, remap_one; simpl. by rewrite Ho.
    + intros l' Hl'. simpl. apply lookup_insert_is_Some'. right.
      apply Hin. by right.
Qed.

Lemma remapped_fields o :
  fields (remapped o) !! "_id" = None ∧
  fields (remapped o) !! "_rev" = None ∧
  fields (remapped o) !! "id" =
    (if truthy (field o "_id") then Some (field o "_id") else fields o !! "id") ∧
  fields (remapped o) !! "rev" =
    (if truthy (field o "_rev") then Some (field o "_rev") else fields o !! "rev") ∧
  (∀ k, k ≠ "_id" → k ≠ "_rev" → k ≠ "id" → k ≠ "rev" →
        fields (remapped o) !! k = fields o !! k) ∧
  elems (remapped o) = elems o.
Proof.
  unfold remapped; simpl.
  repeat split.
  - apply lookup_delete_eq.
  - rewrite lookup_delete_ne by done. apply lookup_delete_eq.
  - rewrite !lookup_delete_ne by done.
    destruct (truthy (field o "_id")), (truthy (field o "_rev"));
      by simplify_map_eq.
  - rewrite !lookup_delete_ne by done.
    destruct (truthy (field o "_id")), (truthy (field o "_rev"));
      by simplify_map_eq.
  - intros k ? ? ? ?. rewrite !lookup_delete_ne by done.
    destruct (truthy (field o "_id")), (truthy (field o "_rev"));
      by simplify_map_eq.
Qed.

Lemma remapped_idemp o : remapped (remapped o) = remapped o.
Proof.
  destruct (remapped_fields o) as (Hid & Hrev & _).
  unfold remapped at 1. unfold field. rewrite Hid, Hrev. simpl.
  rewrite (delete_id _ "_rev") by done. rewrite delete_id by done.
  reflexivity.
Qed.

Lemma remap_one_lookup h x l :
  remap_one h x !! l =
    if bool_decide (l = x) then remapped <$> h !! l else h !! l.
Proof.
  unfold remap_one. case_bool_decide as Hl.
  - subst. destruct (h !! x) eqn:Hx; simpl; [|done].
    by rewrite lookup_insert_eq.
  - destruct (h !! x); [|done]. by rewrite lookup_insert_ne.
Qed.

Lemma remap_all_lookup ls : ∀ h l,
  remap_all ls h !! l =
    if bool_decide (l ∈ ls) then remapped <$> h !! l else h !! l.
Proof.
  induction ls as [|x ls IH]; intros h l; simpl.
  - done.
  - unfold remap_all in *. simpl. rewrite IH, remap_one_lookup.
    destruct (decide (l = x)) as [->|Hne].
    + rewrite (bool_decide_eq_true_2 (x = x)) by done.
      rewrite (bool_decide_eq_true_2 (x ∈ x :: ls)) by left.
      case_bool_decide; [|done].
      destruct (h !! x); simpl; [|done]. by rewrite remapped_idemp.
    + rewrite (bool_decide_eq_false_2 (l = x)) by done.
      rewrite (bool_decide_ext (l ∈ x :: ls) (l ∈ ls)); [done|].
      rewrite elem_of_cons. split; [by intros [?|?]|by right].
Qed.

Lemma alloc_fresh o w :
  ∃ l, heap w !! l = None ∧
       alloc o w = (World (<[l := o]> (heap w)) (calls w), Ok (VRef l)).
Proof.
  exists (fresh (dom (heap w))). split; [|done].
  apply not_elem_of_dom, is_fresh.
Qed.

Lemma as_array_obj w l o :
  heap w !! l = Some o → as_array (VRef l) w = (w, Ok (elems o)).
Proof. intros Hl. unfold as_array. by rewrite Hl. Qed.

Lemma bulkGet_array (db : backend) w a oa ls :
  heap w !! a = Some oa → elems oa = Some (VRef <$> ls) →
  (∀ l, l ∈ ls → is_Some (heap w !! l)) →
  ∃ p q, heap w !! p = None ∧ heap w !! q = None ∧ p ≠ q ∧
    bulkGet db (VRef a) w =
      (if bool_decide (ls = []) then ret []
       else r <- call_db db (CallBulkGet (VRef p)) ;; mapBulkGetResultsToRoot r)
        (World (request_heap (heap w) ls p q) (calls w)).
Proof.
  intros Ha Hes Hin. unfold bulkGet. simpl.
  rewrite (bind_ok _ _ _ _ _ (as_array_obj w a oa Ha)). rewrite Hes.
  destruct (alloc_fresh (plain {[ "docs" := VRef a ]}) w) as (p & Hp & Hallocp).
  rewrite (bind_ok _ _ _ _ _ Hallocp).
  set (w1 := World _ _).
  assert (a ≠ p) as Hap by congruence.
  rewrite (bind_ok _ _ w1 w1 (VRef a)).
  2:{ rewrite (get_field_obj w1 p (plain {[ "docs" := VRef a ]}));
        [|apply lookup_insert_eq|done].
      unfold field; simpl. by rewrite lookup_singleton_eq. }
  rewrite (bind_ok _ _ w1 w1 (Some (VRef <$> ls))).
  2:{ erewrite as_array_obj; [|simpl; by rewrite lookup_insert_ne]. by rewrite Hes. }
  erewrite bind_ok; last apply mapM_remapIdRev.
  2:{ intros l Hl. simpl. apply lookup_insert_is_Some'. right. by apply Hin. }
  set (w2 := World _ _).
  destruct (alloc_fresh (array (VRef <$> ls)) w2) as (q & Hq & Hallocq).
  rewrite (bind_ok _ _ _ _ _ Hallocq).
  assert (p ∉ ls) as Hpls.
  { intros Hl. destruct (Hin p Hl) as [? ?]. congruence. }
  assert (heap w2 !! p = Some (plain {[ "docs" := VRef a ]})) as Hp2.
  { simpl. rewrite remap_all_lookup, bool_decide_eq_false_2 by done.
    apply lookup_insert_eq. }
  assert (p ≠ q) as Hpq by congruence.
  assert (heap w !! q = None) as Hqw.
  { simpl in Hq. rewrite remap_all_lookup in Hq.
    destruct (heap w !! q) eqn:Hwq; [|done].
    rewrite lookup_insert_ne in Hq by done. rewrite Hwq in Hq.
    by case_bool_decide. }
  exists p, q. repeat split; try done.
  erewrite bind_ok; last (apply set_field_obj; simpl; by rewrite lookup_insert_ne).
  simpl. rewrite insert_singleton_eq.
  set (w3 := World _ _).
  rewrite (bind_ok _ _ w3 w3 (VRef q)).
  2:{ rewrite (get_field_obj w3 p (plain {[ "docs" := VRef q ]}));
        [|apply lookup_insert_eq|done].
      unfold field; simpl. by rewrite lookup_singleton_eq. }
  rewrite (bind_ok _ _ w3 w3 (VNum (Z.of_nat (length ls)))).
  2:{ unfold get_field; simpl. rewrite lookup_insert_ne by done.
      rewrite lookup_insert_eq. simpl. by rewrite length_fmap. }
  assert (heap w3 = request_heap (heap w) ls p q) as Hw3.
  { unfold w3, request_heap; simpl.
    apply map_eq. intros l.
    destruct (decide (l = p)) as [->|Hne]; [by rewrite !lookup_insert_eq|].
    rewrite !(lookup_insert_ne _ p) by done.
    destruct (decide (l = q)) as [->|Hnq]; [by rewrite !lookup_insert_eq|].
    rewrite !(lookup_insert_ne _ q) by done.
    rewrite !remap_all_lookup. by rewrite lookup_insert_ne. }
  rewrite <- Hw3. by destruct ls.
Qed.

Lemma bulkGet_docs_object (db : backend) w p op a oa ls :
  heap w !! p = Some op → elems op = None →
  fields op !! "docs" = Some (VRef a) →
  heap w !! a = Some oa → elems oa = Some (VRef <$> ls) →
  (∀ l, l ∈ ls → is_Some (heap w !! l)) → p ∉ ls →
  ∃ q, heap w !! q = None ∧
    bulkGet db (VRef p) w =
      (if bool_decide (ls = []) then ret []
       else r <- call_db db (CallBulkGet (VRef p)) ;; mapBulkGetResultsToRoot r)
        (World (<[p := Obj (<["docs" := VRef q]> (fields op)) None]>
                  (<[q := array (VRef <$> ls)]> (remap_all ls (heap w))))
               (calls w)).
Proof.
  intros Hp Hop Hdocs Ha Hes Hin Hpls. unfold bulkGet. simpl.
  rewrite (bind_ok _ _ _ _ _ (as_array_obj w p op Hp)). rewrite Hop.
  rewrite (bind_ok _ _ w w (VRef p)) by done.
  rewrite (bind_ok _ _ w w (VRef a)).
  2:{ rewrite (get_field_obj w p op) by done. unfold field. by rewrite Hdocs. }
  rewrite (bind_ok _ _ _ _ _ (as_array_obj w a oa Ha)). rewrite Hes.
  erewrite bind_ok; last by apply mapM_remapIdRev.
  set (w2 := World _ _).
  destruct (alloc_fresh (array (VRef <$> ls)) w2) as (q & Hq & Hallocq).
  rewrite (bind_ok _ _ _ _ _ Hallocq).
  assert (heap w2 !! p = Some op) as Hp2.
  { simpl. by rewrite remap_all_lookup, bool_decide_eq_false_2. }
  assert (p ≠ q) as Hpq by congruence.
  assert (heap w !! q = None) as Hqw.
  { simpl in Hq. rewrite remap_all_lookup in Hq.
    destruct (heap w !! q) eqn:Hwq; [|done]. by case_bool_decide. }
  exists q. split; [done|].
  erewrite bind_ok; last (apply set_field_obj; simpl; by rewrite lookup_insert_ne).
  rewrite Hop. set (w3 := World _ _).
  rewrite (bind_ok _ _ w3 w3 (VRef q)).
  2:{ erewrite get_field_obj; [|apply lookup_insert_eq|done].
      unfold field; simpl. by rewrite lookup_insert_eq. }
  rewrite (bind_ok _ _ w3 w3 (VNum (Z.of_nat (length ls)))).
  2:{ unfold get_field; simpl. rewrite lookup_insert_ne by done.
      rewrite lookup_insert_eq. simpl. by rewrite length_fmap. }
  by destruct ls.
Qed.

(** Both forms of the batch reach the test of [opts.docs.length] without
    a backend call and with the entries remapped. *)
Lemma bulkGet_request (db : backend) w opts ls :
  batch_request (heap w) opts ls →
  ∃ p q hb, sent_request (heap w) hb ls p q ∧
    bulkGet db opts w =
      (if bool_decide (ls = []) then ret []
       else r <- call_db db (CallBulkGet (VRef p)) ;; mapBulkGetResultsToRoot r)
        (World hb (calls w)).
Proof.
  intros [Hin [(a & oa & -> & Ha & Hes)|(p & op & a & oa & -> & Hp & Hop & Hdocs & Ha & Hes & Hpls)]].
  - destruct (bulkGet_array db w a oa ls Ha Hes Hin)
      as (p & q & Hp & Hq & Hpq & Heq).
    exists p, q, (request_heap (heap w) ls p q). split; [|done].
    unfold request_heap. repeat split.
    + eexists. split; [apply lookup_insert_eq|]. apply lookup_singleton_eq.
    + rewrite lookup_insert_ne by done. apply lookup_insert_eq.
    + done.
    + intros l Hl. destruct (Hin l Hl) as [o Ho].
      rewrite !lookup_insert_ne by congruence.
      by rewrite remap_all_lookup, bool_decide_eq_true_2.
    + intros l Hl Hlp Hlq. rewrite !lookup_insert_ne by done.
      by rewrite remap_all_lookup, bool_decide_eq_false_2.
  - destruct (bulkGet_docs_object db w p op a oa ls Hp Hop Hdocs Ha Hes Hin Hpls)
      as (q & Hq & Heq).
    assert (p ≠ q) as Hpq by congruence.
    eexists p, q, _. split; [|exact Heq].
    repeat split.
    + eexists. split; [apply lookup_insert_eq|]. apply lookup_insert_eq.
    + rewrite lookup_insert_ne by done. apply lookup_insert_eq.
    + done.
    + intros l Hl. destruct (Hin l Hl) as [o Ho].
      rewrite !lookup_insert_ne by congruence.
      by rewrite remap_all_lookup, bool_decide_eq_true_2.
    + intros l Hl Hlp Hlq. rewrite !lookup_insert_ne by done.
      by rewrite remap_all_lookup, bool_decide_eq_false_2.
Qed.

(** C6: [bulkGet] given an empty array, or an object whose [docs] is an
    empty array, resolves to an empty array, and the log of backend calls
    is what it was. *)
Theorem bulkGet_empty_no_backend_call (db : backend) (w : world) :
  (∀ a oa, heap w !! a = Some oa → elems oa = Some [] →
     ∃ h', bulkGet db (VRef a) w = (World h' (calls w), Ok []))
  ∧ (∀ p op a oa,
       heap w !! p = Some op → elems op = None →
       fields op !! "docs" = Some (VRef a) →
       heap w !! a = Some oa → elems oa = Some [] →
       ∃ h', bulkGet db (VRef p) w = (World h' (calls w), Ok [])).
Proof.
  split.
  - intros a oa Ha Hes.
    destruct (bulkGet_array db w a oa [] Ha Hes) as (p & q & _ & _ & _ & ->).
    + intros l Hl. by apply elem_of_nil in Hl.
    + by eexists.
  - intros p op a oa Hp Hop Hdocs Ha Hes. unfold bulkGet. simpl.
    rewrite (bind_ok _ _ _ _ _ (as_array_obj w p op Hp)). rewrite Hop.
    rewrite (bind_ok _ _ w w (VRef p)) by done.
    rewrite (bind_ok _ _ w w (VRef a)).
    2:{ rewrite (get_field_obj w p op) by done. unfold field. by rewrite Hdocs. }
    rewrite (bind_ok _ _ _ _ _ (as_array_obj w a oa Ha)). rewrite Hes.
    simpl. rewrite (bind_ok _ _ w w []) by done.
    destruct (alloc_fresh (array []) w) as (q & Hq & Hallocq).
    rewrite (bind_ok _ _ _ _ _ Hallocq).
    assert (p ≠ q) as Hpq by congruence.
    erewrite bind_ok; last (apply set_field_obj; simpl; by rewrite lookup_insert_ne).
    set (w3 := World _ _).
    rewrite (bind_ok _ _ w3 w3 (VRef q)).
    2:{ erewrite get_field_obj; [|apply lookup_insert_eq|done].
        unfold field; simpl. by rewrite lookup_insert_eq. }
    rewrite (bind_ok _ _ w3 w3 (VNum 0)).
    2:{ unfold get_field; simpl. rewrite lookup_insert_ne by done.
        by rewrite lookup_insert_eq. }
    by eexists.
Qed.

(** C9: [bulkGet] given a non-empty array of objects, as such or as the
    [docs] of an object, reaches the backend call with the log of backend
    calls still as it was and with the caller's own objects rewritten in
    the heap: a truthy [_id] or [_rev] has been copied to [id] or [rev],
    both underscore fields are gone, and nothing else of the entry has
    changed.  The array handed to the backend holds the same references. *)
Theorem bulkGet_remaps_entries_in_place (db : backend) (w : world)
    (opts : value) (ls : list loc) :
  batch_request (heap w) opts ls → ls ≠ [] →
  ∃ p q hb,
    bulkGet db opts w =
      (r <- call_db db (CallBulkGet (VRef p)) ;; mapBulkGetResultsToRoot r)
        (World hb (calls w))
    ∧ (∃ o, hb !! p = Some o ∧ fields o !! "docs" = Some (VRef q))
    ∧ hb !! q = Some (array (VRef <$> ls))
    ∧ (∀ l o, l ∈ ls → heap w !! l = Some o →
         ∃ o', hb !! l = Some o'
           ∧ fields o' !! "_id" = None
           ∧ fields o' !! "_rev" = None
           ∧ fields o' !! "id" =
               (if truthy (field o "_id") then Some (field o "_id")
                else fields o !! "id")
           ∧ fields o' !! "rev" =
               (if truthy (field o "_rev") then Some (field o "_rev")
                else fields o !! "rev")
           ∧ (∀ k, k ≠ "_id" → k ≠ "_rev" → k ≠ "id" → k ≠ "rev" →
                fields o' !! k = fields o !! k)
           ∧ elems o' = elems o).
Proof.
  intros Hreq Hne.
  destruct (bulkGet_request db w opts ls Hreq)
    as (p & q & hb & (Hp & Hq & _ & Hls & _) & Heq).
  rewrite bool_decide_eq_false_2 in Heq by done.
  exists p, q, hb. split; [done|]. split; [done|]. split; [done|].
  intros l o Hl Ho. exists (remapped o). split.
  - by rewrite Hls, Ho.
  - apply remapped_fields.
Qed.

(** ** [bulkGet]: the response *)

Lemma get_elem_world v i w : (get_elem v i w).1 = w.
Proof. unfold get_elem. by repeat case_match. Qed.

Lemma get_step_world v s w : (get_step v s w).1 = w.
Proof.
  unfold get_step.
  destruct v, s; try done; first [apply get_field_world | apply get_elem_world].
Qed.

Lemma lodash_get_world path : ∀ v w, (lodash_get v path w).1 = w.
Proof.
  unfold lodash_get.
  induction path as [|s path IH]; intros v w; simpl; [done|].
  unfold bind. pose proof (get_step_world v s w) as Hs.
  destruct (get_step v s w) as [w' [v'|e]]; simpl in *; subst; [apply IH|done].
Qed.








(** ** [createIndicies] *)

Lemma baseUniq_elem l : ∀ seen x,
  x ∈ baseUniq seen l ↔ x ∈ l ∧ x ∉ seen.
Proof.
  induction l as [|y l IH]; intros seen x; simpl.
  - split; [by intros ?%elem_of_nil|by intros [?%elem_of_nil _]].
  - case_bool_decide as Hy.
    + rewrite IH, elem_of_cons. split.
      * intros [? ?]. split; [by right|done].
      * intros [[->|?] ?]; [done|done].
    + rewrite !elem_of_cons, IH, elem_of_cons. split.
      * intros [->|[? ?]]; [split; [by left|done]|].
        split; [by right|]. intros ?. tauto.
      * intros [[->|?] ?]; [by left|].
        destruct (decide (x = y)) as [->|?]; [by left|].
        right. split; [done|]. intros [?|?]; done.
Qed.

Lemma baseUniq_NoDup l : ∀ seen, NoDup (baseUniq seen l).
Proof.
  induction l as [|y l IH]; intros seen; simpl; [constructor|].
  case_bool_decide; [apply IH|].
  constructor; [|apply IH].
  rewrite baseUniq_elem, elem_of_cons. intros [_ []]. by left.
Qed.

Lemma strict_eq_num v n : strict_eq v (VNum n) = bool_decide (v = VNum n).
Proof. by destruct v. Qed.

Lemma err_status_spec w e st :
  rejection_status (heap w) e = Some st → err_status e w = (w, Ok st).
Proof.
  destruct e as [| | |v|]; simpl; try (by intros [= <-]).
  destruct v; simpl; try (by intros [= <-]).
  destruct (heap w !! l) as [o|] eqn:Hl; simpl; [|done].
  intros [= <-]. unfold field. by destruct (elems o).
Qed.

Lemma createIndicies_outcome (db : backend) ind w h' r :
  let c := CallCreateIndex (unique (indicies_list ind)) in
  db c (heap w) = (h', r) →
  (∀ e, r = Throw e → is_Some (rejection_status h' e)) →
  createIndicies db ind w =
    (World h' (calls w ++ [c])%list,
     match r with
     | Ok v => Ok v
     | Throw e =>
         if bool_decide (rejection_status h' e = Some (VNum 409))
         then Ok VUndef else Throw e
     end).
Proof.
  intros c Hdb Hst. unfold createIndicies, catch, call_db. fold c.
  rewrite Hdb. destruct r as [v|e]; [done|].
  destruct (Hst e eq_refl) as [st Hs].
  unfold handleFailCreateIndicies.
  set (w1 := World _ _).
  rewrite (bind_ok _ _ _ _ _ (err_status_spec w1 e st Hs)).
  rewrite strict_eq_num, Hs.
  case_bool_decide as H1; case_bool_decide as H2; try done; congruence.
Qed.

(** C5: [createIndicies] makes one index-creation call, over the given
    names without repetition: a single name is passed on as the list of
    that one name, and a list of names as the names that occur in it, each
    once.  A success is passed on; a rejection whose [status] is 409
    becomes a success; a rejection with any other status is passed on as
    it is.  Hence two calls in a row both succeed on a backend that
    answers the repeated creation with a success or with a 409
    rejection. *)
Theorem createIndicies_swallows_conflict (db : backend) (ind : indicies_arg)
    (w : world) :
  let fs := unique (indicies_list ind) in
  let c := CallCreateIndex fs in
  (NoDup fs ∧ (∀ x, x ∈ fs ↔ x ∈ indicies_list ind)
   ∧ (∀ s, ind = OneIndex s → fs = [s])
   ∧ (∀ l, ind = ManyIndicies l → ∀ x, x ∈ fs ↔ x ∈ l))
  ∧ (∀ h' v, db c (heap w) = (h', Ok v) →
       createIndicies db ind w = (World h' (calls w ++ [c])%list, Ok v))
  ∧ (∀ h' e, db c (heap w) = (h', Throw e) →
       rejection_status h' e = Some (VNum 409) →
       createIndicies db ind w = (World h' (calls w ++ [c])%list, Ok VUndef))
  ∧ (∀ h' e st, db c (heap w) = (h', Throw e) →
       rejection_status h' e = Some st → st ≠ VNum 409 →
       createIndicies db ind w = (World h' (calls w ++ [c])%list, Throw e))
  ∧ (creates_or_conflicts db →
       ∃ w1 v1 w2 v2,
         createIndicies db ind w = (w1, Ok v1) ∧
         createIndicies db ind w1 = (w2, Ok v2) ∧
         calls w2 = (calls w ++ [c; c])%list).
Proof.
  intros fs c. split; [|split; [|split; [|split]]].
  - assert (∀ x, x ∈ fs ↔ x ∈ indicies_list ind) as Hsame.
    { intros x. unfold fs, unique. rewrite baseUniq_elem.
      split; [by intros [? _]|]. intros ?. split; [done|].
      by intros ?%elem_of_nil. }
    split; [apply baseUniq_NoDup|]. split; [exact Hsame|]. split.
    + intros s ->. reflexivity.
    + intros l ->. exact Hsame.
  - intros h' v Hdb.
    by rewrite (createIndicies_outcome db ind w h' (Ok v) Hdb).
  - intros h' e Hdb Hst.
    rewrite (createIndicies_outcome db ind w h' (Throw e) Hdb).
    + by rewrite bool_decide_eq_true_2.
    + intros ? [= <-]. by eexists.
  - intros h' e st Hdb Hst Hne.
    rewrite (createIndicies_outcome db ind w h' (Throw e) Hdb).
    + rewrite bool_decide_eq_false_2; [done|congruence].
    + intros ? [= <-]. by eexists.
  - intros Hdb.
    assert (∀ w0, ∃ w' v, createIndicies db ind w0 = (w', Ok v) ∧
                          calls w' = (calls w0 ++ [c])%list) as Hone.
    { intros w0. destruct (Hdb fs (heap w0)) as (h' & [(v & Hv)|(e & He & Hst)]).
      - eexists _, _.
        by rewrite (createIndicies_outcome db ind w0 h' (Ok v) Hv).
      - eexists _, _.
        rewrite (createIndicies_outcome db ind w0 h' (Throw e) He).
        + by rewrite bool_decide_eq_true_2.
        + intros ? [= <-]. by eexists. }
    destruct (Hone w) as (w1 & v1 & H1 & Hc1).
    destruct (Hone w1) as (w2 & v2 & H2 & Hc2).
    exists w1, v1, w2, v2. repeat split; [done|done|].
    by rewrite Hc2, Hc1, <- app_assoc.
Qed.

(** ** [destroy] *)

Section Destroy.

Import Lifecycle.
Local Close Scope string_scope.

Lemma run_quiescent n w : quiescent w → run n w = w.
Proof. intros [Hj Ht]. destruct n; simpl; [done|]. by rewrite Hj, Ht. Qed.

(** With a live session the listener is registered, and only then is
    the session cancelled, whenever the handle completes. *)
Lemma destroy_live_listens_before_cancel s em n :
  syncEmitter s = Some em → is_live s = true →
  occurs_before EvListen EvCancel (destroy_trace n s) = true.
Proof.
  intros Hem Hlive. unfold destroy_trace, destroy. rewrite Hem, Hlive.
  destruct em; (destruct n as [|[|[|n]]]; [reflexivity..|]);
    simpl; rewrite ?run_quiescent by (by split); reflexivity.
Qed.

(** C3, evaluated on a live session whose handle completes in a later
    task of the loop, as an asynchronous emitter does: the listener is
    registered before the cancellation, but [db.destroy()] is called
    before [complete] is emitted.  When the handle never completes,
    [db.destroy()] is called all the same. *)
Theorem destroy_live_does_not_wait_for_complete (n : nat) :
  destroy_trace (3 + n) (store_of CompletesLater (VBool true)) =
    [EvListen; EvCancel; EvDestroy; EvComplete]
  ∧ destroy_trace (3 + n) (store_of NeverCompletes (VBool true)) =
    [EvListen; EvCancel; EvDestroy].
Proof.
  split; unfold destroy_trace; simpl;
    rewrite ?run_quiescent by (by split); reflexivity.
Qed.

(** C10: with a session that is not live, [destroy] registers no
    listener, cancels the session, and the first promise job of the
    loop calls [db.destroy()], whether the handle completes inside
    [cancel()], later, or never. *)
Theorem destroy_one_shot_cancels_without_waiting (s : store) (em : emitter)
    (n : nat) :
  syncEmitter s = Some em → is_live s = false →
  destroy_trace (2 + n) s =
    match em with
    | CompletesInCancel => [EvCancel; EvComplete; EvDestroy]
    | CompletesLater => [EvCancel; EvDestroy; EvComplete]
    | NeverCompletes => [EvCancel; EvDestroy]
    end
  ∧ destroy_trace 1 s =
    match em with
    | CompletesInCancel => [EvCancel; EvComplete; EvDestroy]
    | _ => [EvCancel; EvDestroy]
    end
  ∧ listeners (snd (destroy s init)) = [].
Proof.
  intros Hem Hlive. unfold destroy_trace, destroy. rewrite Hem, Hlive.
  destruct em; simpl;
    (split; [rewrite ?run_quiescent by (by split); reflexivity|done]).
Qed.

Lemma destroy_one_shot_cancels_without_waiting_witness :
  syncEmitter (store_of CompletesLater (VBool false)) = Some CompletesLater
  ∧ is_live (store_of CompletesLater (VBool false)) = false
  ∧ destroy_trace 2 (store_of CompletesLater (VBool false)) =
      [EvCancel; EvDestroy; EvComplete].
Proof.
  split; [reflexivity|]. split; [reflexivity|].
  exact (proj1 (destroy_one_shot_cancels_without_waiting
                  (store_of CompletesLater (VBool false)) CompletesLater 0
                  eq_refl eq_refl)).
Defined.

End Destroy.

(** ** [all] *)

(** C1, evaluated: [all()] with no options on a store that holds a
    design document returns it with the ordinary document; nothing is
    filtered when [includeDesignDocs] is not set. *)
Theorem all_default_keeps_design_docs :
  ∃ w' o,
    all canned_backend VUndef listing_world
      = (w', Ok [VRef 14%positive; VRef 15%positive])
    ∧ heap w' !! 14%positive = Some o
    ∧ field o "_id" = VStr "_design/idx-1"
    ∧ designDocRegex "_design/idx-1" = true.
Proof.
  eexists _, _. split; [vm_compute; reflexivity|].
  split; [vm_compute; reflexivity|]. split; vm_compute; reflexivity.
Qed.

Lemma normalized_fields (ro : obj) (x rev : value) :
  only_stub_fields ro →
  delete "key" (delete "value" (delete "id"
    (<["_rev" := rev]> (<["_id" := x]> (fields ro)))))
  = {[ "_id" := x; "_rev" := rev ]}.
Proof.
  intros Hs. rewrite !(delete_insert_ne _ _ "_rev") by done.
  rewrite !(delete_insert_ne _ _ "_id") by done.
  rewrite Hs. rewrite insert_insert_ne by done. by rewrite insert_empty.
Qed.

(** The part of [simplifyAllDocSet] that rewrites a stub *)
Lemma simplify_stub_rewrite w l ro vl vo :
  heap w !! l = Some ro → only_stub_fields ro →
  fields ro !! "value" = Some (VRef vl) → vl ≠ l → heap w !! vl = Some vo →
  (id <- get_field (VRef l) "id" ;;
   set_field (VRef l) "_id" id ;;
   val <- get_field (VRef l) "value" ;;
   rev <- get_field val "rev" ;;
   set_field (VRef l) "_rev" rev ;;
   delete_field (VRef l) "id" ;;
   delete_field (VRef l) "value" ;;
   delete_field (VRef l) "key") w
  = (World (<[l := normalized ro vo]> (heap w)) (calls w), Ok tt).
Proof.
  intros Hl Hs Hval Hne Hvl.
  rewrite (bind_ok _ _ w w (field ro "id")) by by apply get_field_obj.
  rewrite (bind_ok _ _ _ _ _ (set_field_obj w l ro _ _ Hl)).
  set (w1 := World _ _).
  rewrite (bind_ok _ _ w1 w1 (VRef vl)).
  2:{ erewrite get_field_obj; [|apply lookup_insert_eq|done].
      unfold field; simpl. rewrite lookup_insert_ne by done. by rewrite Hval. }
  rewrite (bind_ok _ _ w1 w1 (field vo "rev")).
  2:{ apply get_field_obj; [|done]. simpl. by rewrite lookup_insert_ne. }
  erewrite bind_ok; last (apply set_field_obj; apply lookup_insert_eq).
  erewrite bind_ok; last (apply delete_field_obj; apply lookup_insert_eq).
  erewrite bind_ok; last (apply delete_field_obj; apply lookup_insert_eq).
  erewrite delete_field_obj; last apply lookup_insert_eq.
  simpl. rewrite !insert_insert_eq. unfold normalized.
  by rewrite normalized_fields.
Qed.

Lemma simplifyAllDocSet_stub w o oo r l ro vl vo :
  heap w !! o = Some oo → truthy (field oo "include_docs") = false → o ≠ l →
  heap w !! l = Some ro → only_stub_fields ro →
  fields ro !! "value" = Some (VRef vl) → vl ≠ l → heap w !! vl = Some vo →
  (truthy (field oo "includeDesignDocs") = true →
     ∃ s, field ro "id" = VStr s) →
  simplifyAllDocSet (VRef o) r (VRef l) w =
    (World (<[l := normalized ro vo]> (heap w)) (calls w),
     Ok (if truthy (field oo "includeDesignDocs")
         then match field ro "id" with
              | VStr s => if designDocRegex s then (r ++ [VRef l])%list else r
              | _ => r
              end
         else (r ++ [VRef l])%list)).
Proof.
  intros Ho Hinc Hol Hl Hs Hval Hne Hvl Hstr. unfold simplifyAllDocSet.
  rewrite (bind_ok _ _ w w (field oo "include_docs")) by by apply get_field_obj.
  rewrite Hinc. rewrite (bind_ok _ _ w w (VRef l)) by done.
  rewrite (bind_ok _ _ w w (field oo "include_docs")) by by apply get_field_obj.
  rewrite Hinc. simpl negb. cbv iota.
  rewrite (bind_ok _ _ _ _ _ (simplify_stub_rewrite w l ro vl vo Hl Hs Hval Hne Hvl)).
  set (w1 := World _ _).
  assert (heap w1 !! o = Some oo) as Ho1 by (simpl; by rewrite lookup_insert_ne).
  rewrite (bind_ok _ _ w1 w1 (field oo "includeDesignDocs"))
    by by apply get_field_obj.
  destruct (truthy (field oo "includeDesignDocs")) eqn:Hidd; simpl; [|done].
  rewrite (bind_ok _ _ w1 w1 (field oo "includeDesignDocs"))
    by by apply get_field_obj.
  rewrite Hidd.
  destruct (Hstr eq_refl) as [s Hid]. rewrite Hid.
  rewrite (bind_ok _ _ w1 w1 (VStr s)).
  2:{ erewrite get_field_obj; [|apply lookup_insert_eq|done].
      unfold field, normalized; simpl. rewrite lookup_insert_eq. by rewrite <- Hid. }
  simpl. unfold bind, ret. by destruct (designDocRegex s).
Qed.

Lemma foldM_stub_rows o oo : ∀ ls w r,
  heap w !! o = Some oo → truthy (field oo "include_docs") = false →
  o ∉ ls → NoDup ls →
  (∀ l, l ∈ ls → ∃ ro vo, stub_row (heap w) ls l ro vo ∧
     (truthy (field oo "includeDesignDocs") = true →
        ∃ s, field ro "id" = VStr s)) →
  ∃ w',
    foldM (simplifyAllDocSet (VRef o)) r (VRef <$> ls) w =
      (w', Ok (r ++ (VRef <$> List.filter (row_kept (heap w) oo) ls))%list)
    ∧ calls w' = calls w
    ∧ (∀ l ro vo, l ∈ ls → stub_row (heap w) ls l ro vo →
         heap w' !! l = Some (normalized ro vo))
    ∧ (∀ l, l ∉ ls → heap w' !! l = heap w !! l).
Proof.
  induction ls as [|l ls IH]; intros w r Ho Hinc Hols Hnd Hrows.
  - exists w. simpl. rewrite app_nil_r. repeat split; try done.
    intros l ro vo Hl. by apply elem_of_nil in Hl.
  - apply not_elem_of_cons in Hols as [Hol Hols].
    apply NoDup_cons in Hnd as [Hl Hnd].
    destruct (Hrows l) as (ro & vo & (Hro & Hs & vl & Hval & Hvl & Hvo) & Hstr);
      [left|].
    apply not_elem_of_cons in Hvl as [Hvl_l Hvl].
    rewrite fmap_cons. cbn [foldM].
    rewrite (bind_ok _ _ _ _ _
      (simplifyAllDocSet_stub w o oo r l ro vl vo Ho Hinc Hol Hro Hs Hval
         Hvl_l Hvo Hstr)).
    set (w1 := World _ _). set (r1 := if truthy _ then _ else _).
    assert (∀ l', l' ≠ l → heap w1 !! l' = heap w !! l') as Hframe.
    { intros l' Hne. simpl. by rewrite lookup_insert_ne. }
    destruct (IH w1 r1) as (w' & Hfold & Hcalls & Hnorm & Hother); try done.
    { by rewrite Hframe. }
    { intros l' Hl'. destruct (Hrows l') as (ro' & vo' & Hst' & Hstr'); [by right|].
      exists ro', vo'. split; [|done].
      destruct Hst' as (Hro' & Hs' & vl' & Hval' & Hvl' & Hvo').
      apply not_elem_of_cons in Hvl' as [Hvl'_l Hvl'].
      split; [|split; [done|]].
      - rewrite Hframe; [done|]. intros ->. done.
      - exists vl'. split; [done|]. split; [done|]. by rewrite Hframe. }
    exists w'. split; [|split; [done|split]].
    + rewrite Hfold. f_equal. f_equal.
      assert (List.filter (row_kept (heap w1) oo) ls =
              List.filter (row_kept (heap w) oo) ls) as ->.
      { apply List.filter_ext_in. intros l' Hl'%list_elem_of_In.
        unfold row_kept. rewrite Hframe; [done|]. by intros ->. }
      cbn [List.filter].
      assert (row_kept (heap w) oo l =
              if truthy (field oo "includeDesignDocs")
              then match field ro "id" with
                   | VStr s => designDocRegex s
                   | _ => false
                   end
              else true) as -> by (unfold row_kept; by rewrite Hro).
      unfold r1.
      destruct (truthy (field oo "includeDesignDocs")).
      * destruct (field ro "id"); try done.
        destruct (designDocRegex s); [|done].
        by rewrite fmap_cons, <- app_assoc.
      * by rewrite fmap_cons, <- app_assoc.
    + intros l' ro' vo' Hl' (Hro' & Hs' & vl' & Hval' & Hvl' & Hvo').
      apply not_elem_of_cons in Hvl' as [Hvl'_l Hvl'].
      apply elem_of_cons in Hl' as [->|Hl'].
      * rewrite Hother by done. simpl. rewrite lookup_insert_eq.
        assert (ro' = ro) as -> by congruence.
        assert (vl' = vl) as -> by congruence.
        by assert (vo' = vo) as -> by congruence.
      * apply Hnorm; [done|].
        assert (l' ≠ l) by (by intros ->).
        split; [by rewrite Hframe|]. split; [done|].
        exists vl'. split; [done|]. split; [done|]. by rewrite Hframe.
    + intros l' Hl'. apply not_elem_of_cons in Hl' as [Hne Hl'].
      rewrite Hother by done. by apply Hframe.
Qed.

Lemma all_defaults_set w o oo v :
  heap w !! o = Some oo → fields oo !! "include_docs" = Some v → v ≠ VUndef →
  all_defaults (VRef o) w = (w, Ok (VRef o)).
Proof.
  intros Ho Hinc Hv. unfold all_defaults.
  rewrite (bind_ok _ _ w w (VRef o)) by done.
  rewrite (bind_ok _ _ w w v).
  2:{ rewrite (get_field_obj w o oo) by done. unfold field. by rewrite Hinc. }
  assert (strict_eq v VUndef = false) as -> by by destruct v.
  by rewrite (bind_ok _ _ w w tt).
Qed.

Lemma normalized_dom ro vo :
  dom (fields (normalized ro vo)) = ({[ "_id"; "_rev" ]} : gset string).
Proof. unfold normalized; simpl. by rewrite dom_insert_L, dom_singleton_L. Qed.

(** C7: [all({ include_docs: false })], once [allDocs] has settled with
    rows that are stubs, resolves to the rows themselves, each rewritten
    in place to an object whose only fields are [_id], the row's [id],
    and [_rev], the [rev] of the row's [value]; [id], [key] and [value]
    are gone.  Without [includeDesignDocs] every row is returned. *)
Theorem all_without_docs_returns_id_rev (db : backend) (w : world) (o : loc)
    (oo oo1 od orows : obj) (h1 : gmap loc obj) (docs rows : loc)
    (ls : list loc) :
  heap w !! o = Some oo → fields oo !! "include_docs" = Some (VBool false) →
  db (CallAllDocs (VRef o)) (heap w) = (h1, Ok (VRef docs)) →
  h1 !! o = Some oo1 → truthy (field oo1 "include_docs") = false →
  h1 !! docs = Some od → fields od !! "rows" = Some (VRef rows) →
  h1 !! rows = Some orows → elems orows = Some (VRef <$> ls) →
  o ∉ ls → NoDup ls →
  (∀ l, l ∈ ls → ∃ ro vo, stub_row h1 ls l ro vo ∧
     (truthy (field oo1 "includeDesignDocs") = true →
        ∃ s, field ro "id" = VStr s)) →
  ∃ w',
    all db (VRef o) w =
      (w', Ok (VRef <$> List.filter (row_kept h1 oo1) ls))
    ∧ (truthy (field oo1 "includeDesignDocs") = false →
         List.filter (row_kept h1 oo1) ls = ls)
    ∧ (∀ l ro vo, l ∈ ls → stub_row h1 ls l ro vo →
         heap w' !! l = Some (normalized ro vo)
         ∧ dom (fields (normalized ro vo)) = ({[ "_id"; "_rev" ]} : gset string)
         ∧ field (normalized ro vo) "_id" = field ro "id"
         ∧ field (normalized ro vo) "_rev" = field vo "rev").
Proof.
  intros Ho Hinc Hdb Ho1 Hinc1 Hdocs Hrows Horows Hes Hols Hnd Hstubs.
  unfold all.
  rewrite (bind_ok _ _ _ _ _ (all_defaults_set w o oo _ Ho Hinc ltac:(done))).
  unfold bind at 1, call_db. rewrite Hdb.
  set (w1 := World _ _). unfold handleReceivedDocs.
  rewrite (bind_ok _ _ w1 w1 (VRef rows)).
  2:{ rewrite (get_field_obj w1 docs od) by done. unfold field. by rewrite Hrows. }
  rewrite (bind_ok _ _ _ _ _ (as_array_obj w1 rows orows Horows)). rewrite Hes.
  destruct (foldM_stub_rows o oo1 ls w1 [] Ho1 Hinc1 Hols Hnd Hstubs)
    as (w' & Hfold & _ & Hnorm & _).
  exists w'. split; [done|]. split.
  - intros Hidd. unfold row_kept. rewrite Hidd.
    clear. induction ls as [|l ls IH]; simpl; [done|]. by rewrite IH.
  - intros l ro vo Hl Hst. split; [by apply Hnorm|].
    split; [apply normalized_dom|].
    unfold normalized, field; simpl. split.
    + by rewrite lookup_insert_eq.
    + rewrite lookup_insert_ne by done. by rewrite lookup_singleton_eq.
Qed.

(** *** With the bodies ([include_docs] truthy, the default)

    The rows are left as they are and the bodies are filtered by
    [includeDesignDocs] alone: all of them are returned when it is falsy,
    and those whose [_id] starts with [_design/] when it is truthy. *)

Lemma simplifyAllDocSet_with_doc w o oo r l ro :
  heap w !! o = Some oo → truthy (field oo "include_docs") = true →
  heap w !! l = Some ro →
  (truthy (field oo "includeDesignDocs") = true →
     has_string_id (heap w) (field ro "doc")) →
  simplifyAllDocSet (VRef o) r (VRef l) w =
    (w, Ok (if doc_kept (heap w) oo (field ro "doc")
            then (r ++ [field ro "doc"])%list else r)).
Proof.
  intros Ho Hinc Hl Hstr. unfold simplifyAllDocSet.
  rewrite (bind_ok _ _ w w (field oo "include_docs")) by by apply get_field_obj.
  rewrite Hinc.
  rewrite (bind_ok _ _ w w (field ro "doc")) by by apply get_field_obj.
  rewrite (bind_ok _ _ w w (field oo "include_docs")) by by apply get_field_obj.
  rewrite Hinc. simpl negb. cbv iota.
  rewrite (bind_ok _ _ w w tt) by done.
  rewrite (bind_ok _ _ w w (field oo "includeDesignDocs"))
    by by apply get_field_obj.
  unfold doc_kept.
  destruct (truthy (field oo "includeDesignDocs")) eqn:Hidd; simpl; [|done].
  rewrite (bind_ok _ _ w w (field oo "includeDesignDocs"))
    by by apply get_field_obj.
  rewrite Hidd.
  destruct (Hstr eq_refl) as (dl & dobj & s & -> & Hdl & Hid).
  rewrite (bind_ok _ _ w w (VStr s)).
  2:{ rewrite (get_field_obj w dl dobj) by done. by rewrite Hid. }
  rewrite Hdl, Hid. simpl. unfold bind, ret. by destruct (designDocRegex s).
Qed.

Lemma foldM_rows_with_doc o oo w : ∀ ls r,
  heap w !! o = Some oo → truthy (field oo "include_docs") = true →
  (∀ l, l ∈ ls → ∃ ro, heap w !! l = Some ro ∧
     (truthy (field oo "includeDesignDocs") = true →
        has_string_id (heap w) (field ro "doc"))) →
  foldM (simplifyAllDocSet (VRef o)) r (VRef <$> ls) w =
    (w, Ok (r ++ List.filter (doc_kept (heap w) oo) (row_doc (heap w) <$> ls))%list).
Proof.
  induction ls as [|l ls IH]; intros r Ho Hinc Hrows.
  - simpl. by rewrite app_nil_r.
  - destruct (Hrows l) as (ro & Hl & Hstr); [left|].
    assert (row_doc (heap w) l = field ro "doc") as Hdoc
      by (unfold row_doc; by rewrite Hl).
    rewrite !fmap_cons. cbn [foldM List.filter].
    rewrite (bind_ok _ _ _ _ _
      (simplifyAllDocSet_with_doc w o oo r l ro Ho Hinc Hl Hstr)).
    rewrite IH; [|done|done|intros l' Hl'; apply Hrows; by right].
    rewrite Hdoc.
    destruct (doc_kept (heap w) oo (field ro "doc")); [|done].
    by rewrite <- app_assoc.
Qed.

(** What [all] resolves to from the response [docs] of [allDocs], with
    the bodies *)
Lemma handleReceivedDocs_with_docs w o oo docs od rows orows ls :
  heap w !! o = Some oo → truthy (field oo "include_docs") = true →
  heap w !! docs = Some od → fields od !! "rows" = Some (VRef rows) →
  heap w !! rows = Some orows → elems orows = Some (VRef <$> ls) →
  (∀ l, l ∈ ls → ∃ ro, heap w !! l = Some ro ∧
     (truthy (field oo "includeDesignDocs") = true →
        has_string_id (heap w) (field ro "doc"))) →
  handleReceivedDocs (VRef o) (VRef docs) w =
    (w, Ok (List.filter (doc_kept (heap w) oo) (row_doc (heap w) <$> ls)))
  ∧ (truthy (field oo "includeDesignDocs") = false →
       List.filter (doc_kept (heap w) oo) (row_doc (heap w) <$> ls)
       = row_doc (heap w) <$> ls).
Proof.
  intros Ho Hinc Hdocs Hrows Horows Hes Hbodies. split.
  - unfold handleReceivedDocs.
    rewrite (bind_ok _ _ w w (VRef rows)).
    2:{ rewrite (get_field_obj w docs od) by done. unfold field. by rewrite Hrows. }
    rewrite (bind_ok _ _ _ _ _ (as_array_obj w rows orows Horows)). rewrite Hes.
    by rewrite (foldM_rows_with_doc o oo w ls []).
  - intros Hidd. unfold doc_kept. rewrite Hidd.
    generalize (row_doc (heap w) <$> ls). clear.
    induction l as [|d l IH]; simpl; [done|]. by rewrite IH.
Qed.

(** ** The theorems at concrete inputs *)

Lemma save_update_mutate_in_place_witness :
  ack_backend (CallPut (VRef 1%positive)) (heap peanut_world)
    = (<[2%positive := ack_meta]> (heap peanut_world), Ok (VRef 2%positive))
  ∧ update ack_backend (VRef 1%positive) peanut_world =
      (World (<[1%positive :=
                  with_id_rev (plain {[ "peanut" := VStr "butter" ]}) ack_meta]>
                (<[2%positive := ack_meta]> (heap peanut_world)))
             [CallPut (VRef 1%positive)],
       Ok (VRef 1%positive))
  ∧ ack_backend (CallPost (VRef 1%positive)) (heap peanut_world)
    = (<[2%positive := ack_meta]> (heap peanut_world), Ok (VRef 2%positive))
  ∧ save ack_backend (VRef 1%positive) peanut_world =
      (World (<[1%positive :=
                  with_id_rev (plain {[ "peanut" := VStr "butter" ]}) ack_meta]>
                (<[2%positive := plain {[ "ok" := VBool true; "id" := VStr "x";
                                          "rev" := VStr "1-a" ]}]>
                   (<[2%positive := ack_meta]> (heap peanut_world))))
             [CallPost (VRef 1%positive)],
       Ok (VRef 1%positive)).
Proof.
  assert (<[2%positive := ack_meta]> (heap peanut_world) !! 1%positive
            = Some (plain {[ "peanut" := VStr "butter" ]})) as Hd
    by (vm_compute; reflexivity).
  assert (<[2%positive := ack_meta]> (heap peanut_world) !! 2%positive
            = Some ack_meta) as Hm
    by (vm_compute; reflexivity).
  destruct (save_update_mutate_in_place ack_backend peanut_world
              1%positive 2%positive _ _ _ Hd Hm) as (Hupdate & Hsave & _).
  split; [reflexivity|]. split; [by apply Hupdate|].
  split; [reflexivity|].
  assert (heap peanut_world !! 1%positive
            = Some (plain {[ "peanut" := VStr "butter" ]})) as Hd0
    by (vm_compute; reflexivity).
  assert (fields (plain {[ "peanut" := VStr "butter" ]}) !! "hasOwnProperty"
            = None) as Hown
    by (vm_compute; reflexivity).
  assert ((2 : positive) ≠ 1)%positive as Hne by discriminate.
  pose proof (Hsave _ Hd0 Hown Hne) as Hs. cbv zeta in Hs.
  assert (id_is_set (plain {[ "peanut" := VStr "butter" ]}) = false) as Hid
    by (vm_compute; reflexivity).
  rewrite Hid in Hs. rewrite Hs by reflexivity.
  assert (Obj (delete "status" (fields ack_meta)) (elems ack_meta)
          = plain {[ "ok" := VBool true; "id" := VStr "x"; "rev" := VStr "1-a" ]})
    as -> by (vm_compute; reflexivity).
  reflexivity.
Defined.

Lemma bulkGet_empty_no_backend_call_witness :
  heap empty_batch_world !! 1%positive = Some (array [])
  ∧ ∃ h', bulkGet canned_backend (VRef 1%positive) empty_batch_world
            = (World h' [], Ok []).
Proof.
  split; [reflexivity|].
  apply (proj1 (bulkGet_empty_no_backend_call canned_backend empty_batch_world)
           1%positive (array [])); reflexivity.
Defined.

Lemma two_revs_entries l :
  l ∈ [2%positive; 3%positive] → is_Some (heap two_revs_world !! l).
Proof.
  intros [->|[->|[]%elem_of_nil]%elem_of_cons]%elem_of_cons; by eexists.
Defined.

(** A batch whose document is found: the call resolves to it, the entry
    has lost its falsy [_rev] and has its [_id] as [id]. *)
Example bulkGet_found :
  ∃ w' o,
    bulkGet canned_backend (VRef 1%positive) found_world
      = (w', Ok [VRef 16%positive])
    ∧ calls w' = [CallBulkGet (VRef 1%positive)]
    ∧ heap w' !! 3%positive = Some o
    ∧ fields o = {[ "id" := VStr "a" ]}.
Proof.
  eexists _, _. split; [vm_compute; reflexivity|].
  split; [vm_compute; reflexivity|]. split; vm_compute; reflexivity.
Qed.

Lemma two_revs_batch :
  batch_request (heap two_revs_world) (VRef 1%positive)
    [2%positive; 3%positive].
Proof.
  split; [exact two_revs_entries|]. left.
  exists 1%positive, (array [VRef 2%positive; VRef 3%positive]).
  split; [reflexivity|]. split; [vm_compute; reflexivity|reflexivity].
Defined.

Lemma bulkGet_remaps_entries_in_place_witness :
  batch_request (heap two_revs_world) (VRef 1%positive)
    [2%positive; 3%positive]
  ∧ ∃ p q hb,
      bulkGet canned_backend (VRef 1%positive) two_revs_world =
        (r <- call_db canned_backend (CallBulkGet (VRef p)) ;;
         mapBulkGetResultsToRoot r) (World hb [])
      ∧ hb !! q = Some (array [VRef 2%positive; VRef 3%positive])
      ∧ ∃ o', hb !! 2%positive = Some o'
          ∧ fields o' !! "_id" = None
          ∧ fields o' !! "id" = Some (VStr "a")
          ∧ fields o' !! "rev" = Some (VStr "1-gone").
Proof.
  split; [exact two_revs_batch|].
  destruct (bulkGet_remaps_entries_in_place canned_backend two_revs_world
              (VRef 1%positive) [2%positive; 3%positive] two_revs_batch
              ltac:(discriminate))
    as (p & q & hb & Hrun & Hp & Hq & Hentries).
  exists p, q, hb.
  split; [exact Hrun|]. split; [exact Hq|].
  destruct (Hentries 2%positive
              (plain {[ "_id" := VStr "a"; "_rev" := VStr "1-gone" ]}))
    as (o' & Ho' & Hid & _ & Hid' & Hrev' & _);
    [by left|vm_compute; reflexivity|].
  exists o'.
  split; [exact Ho'|]. split; [exact Hid|]. split; [exact Hid'|exact Hrev'].
Defined.


Lemma conflict_backend_conflicts : creates_or_conflicts conflict_backend.
Proof.
  intros fs h. eexists. right. eexists. split; [reflexivity|].
  simpl. by rewrite lookup_insert_eq.
Defined.

Lemma createIndicies_swallows_conflict_witness :
  creates_or_conflicts conflict_backend
  ∧ unique (indicies_list (OneIndex "x")) = ["x"]
  ∧ (∃ w1 v1 w2 v2,
      createIndicies conflict_backend (OneIndex "x") (World ∅ [])
        = (w1, Ok v1)
      ∧ createIndicies conflict_backend (OneIndex "x") w1 = (w2, Ok v2)
      ∧ calls w2 = [CallCreateIndex ["x"]; CallCreateIndex ["x"]])
  ∧ ∃ w1 v1 w2 v2,
      createIndicies conflict_backend (ManyIndicies ["a"; "b"; "a"]) (World ∅ [])
        = (w1, Ok v1)
      ∧ createIndicies conflict_backend (ManyIndicies ["a"; "b"; "a"]) w1
        = (w2, Ok v2)
      ∧ calls w2 = [CallCreateIndex ["a"; "b"]; CallCreateIndex ["a"; "b"]].
Proof.
  split; [exact conflict_backend_conflicts|].
  destruct (createIndicies_swallows_conflict conflict_backend
              (OneIndex "x") (World ∅ []))
    as ((_ & _ & Hone & _) & _ & _ & _ & Htwice).
  split; [exact (Hone "x" eq_refl)|].
  split; [exact (Htwice conflict_backend_conflicts)|].
  exact (proj2 (proj2 (proj2 (proj2
           (createIndicies_swallows_conflict conflict_backend
              (ManyIndicies ["a"; "b"; "a"]) (World ∅ [])))))
           conflict_backend_conflicts).
Defined.

Lemma stub_row_12 :
  stub_row stub_heap [12%positive; 13%positive] 12%positive
    stub_row_design (plain {[ "rev" := VStr "1-d" ]}).
Proof.
  split; [vm_compute; reflexivity|]. split; [vm_compute; reflexivity|].
  exists 16%positive. split; [vm_compute; reflexivity|].
  split; [|vm_compute; reflexivity].
  intros [?|[?|[]%elem_of_nil]%elem_of_cons]%elem_of_cons; discriminate.
Defined.

Lemma stub_row_13 :
  stub_row stub_heap [12%positive; 13%positive] 13%positive
    stub_row_a (plain {[ "rev" := VStr "1-a" ]}).
Proof.
  split; [vm_compute; reflexivity|]. split; [vm_compute; reflexivity|].
  exists 17%positive. split; [vm_compute; reflexivity|].
  split; [|vm_compute; reflexivity].
  intros [?|[?|[]%elem_of_nil]%elem_of_cons]%elem_of_cons; discriminate.
Defined.

Lemma stub_heap_rows l :
  l ∈ [12%positive; 13%positive] →
  ∃ ro vo, stub_row stub_heap [12%positive; 13%positive] l ro vo ∧
    (truthy (field no_docs_opts "includeDesignDocs") = true →
       ∃ s, field ro "id" = VStr s).
Proof.
  intros [->|[->|[]%elem_of_nil]%elem_of_cons]%elem_of_cons.
  - exists stub_row_design, (plain {[ "rev" := VStr "1-d" ]}).
    split; [exact stub_row_12|intros H; vm_compute in H; discriminate H].
  - exists stub_row_a, (plain {[ "rev" := VStr "1-a" ]}).
    split; [exact stub_row_13|intros H; vm_compute in H; discriminate H].
Defined.

Lemma all_without_docs_returns_id_rev_witness :
  heap stub_world !! 20%positive = Some no_docs_opts
  ∧ ∃ w', all canned_backend (VRef 20%positive) stub_world
            = (w', Ok [VRef 12%positive; VRef 13%positive])
      ∧ heap w' !! 12%positive
          = Some (normalized stub_row_design (plain {[ "rev" := VStr "1-d" ]}))
      ∧ heap w' !! 13%positive
          = Some (normalized stub_row_a (plain {[ "rev" := VStr "1-a" ]})).
Proof.
  assert (heap stub_world !! 20%positive = Some no_docs_opts) as Ho
    by (vm_compute; reflexivity).
  split; [exact Ho|].
  assert (stub_heap !! 10%positive
            = Some (plain {[ "total_rows" := VNum 2; "offset" := VNum 0;
                             "rows" := VRef 11%positive ]})) as Hdocs
    by (vm_compute; reflexivity).
  assert (stub_heap !! 11%positive
            = Some (array [VRef 12%positive; VRef 13%positive])) as Hrows
    by (vm_compute; reflexivity).
  assert (20%positive ∉ [12%positive; 13%positive]) as Hnot.
  { intros [?|[?|[]%elem_of_nil]%elem_of_cons]%elem_of_cons; discriminate. }
  assert (NoDup [12%positive; 13%positive]) as Hnd.
  { constructor.
    - intros [?|[]%elem_of_nil]%elem_of_cons; discriminate.
    - constructor; [intros []%elem_of_nil|constructor]. }
  destruct (all_without_docs_returns_id_rev canned_backend stub_world
              20%positive no_docs_opts no_docs_opts _ _ stub_heap
              10%positive 11%positive [12%positive; 13%positive]
              Ho eq_refl eq_refl Ho eq_refl Hdocs eq_refl Hrows eq_refl
              Hnot Hnd stub_heap_rows)
    as (w' & Hall & Hdefault & Hnorm).
  exists w'. split.
  - rewrite Hall. rewrite (Hdefault eq_refl). reflexivity.
  - split.
    + exact (proj1 (Hnorm _ _ _ ltac:(by left) stub_row_12)).
    + exact (proj1 (Hnorm _ _ _ ltac:(by right; left) stub_row_13)).
Defined.

(** * Further properties *)

(** ** No method contacts the backend more than once *)

Lemma quiet_ret {A} (a : A) : quiet (ret a).
Proof. by intros w. Qed.

Lemma quiet_throw {A} e : quiet (throw e : M A).
Proof. by intros w. Qed.

Lemma quiet_bind {A B} (c : M A) (k : A → M B) :
  quiet c → (∀ a, quiet (k a)) → quiet (bind c k).
Proof.
  intros Hc Hk w. unfold bind. specialize (Hc w).
  destruct (c w) as [w' [a|e]]; simpl in *; [|done]. by rewrite Hk.
Qed.

Lemma quiet_get_field v k : quiet (get_field v k).
Proof. intros w. by rewrite get_field_world. Qed.

Lemma quiet_set_field v k x : quiet (set_field v k x).
Proof. intros w. apply set_field_calls. Qed.

Lemma quiet_delete_field v k : quiet (delete_field v k).
Proof. intros w. apply delete_field_calls. Qed.

Lemma quiet_has_own_property v k : quiet (has_own_property v k).
Proof. intros w. unfold has_own_property. by repeat case_match. Qed.

Lemma quiet_as_array v : quiet (as_array v).
Proof. intros w. unfold as_array. by repeat case_match. Qed.

Lemma quiet_alloc o : quiet (alloc o).
Proof. by intros w. Qed.

Lemma quiet_mapM {A B} (f : A → M B) l : (∀ x, quiet (f x)) → quiet (mapM f l).
Proof.
  intros Hf. induction l as [|x l IH]; simpl; [apply quiet_ret|].
  apply quiet_bind; [done|]. intros y.
  apply quiet_bind; [done|]. intros ys. apply quiet_ret.
Qed.

Lemma quiet_foldM {A B} (f : B → A → M B) l :
  (∀ r x, quiet (f r x)) → ∀ r, quiet (foldM f r l).
Proof.
  intros Hf. induction l as [|x l IH]; intros r; simpl; [apply quiet_ret|].
  apply quiet_bind; [done|]. intros r'. apply IH.
Qed.

Create HintDb quiet.
#[local] Hint Resolve quiet_ret quiet_throw quiet_get_field quiet_set_field
  quiet_delete_field quiet_has_own_property quiet_as_array quiet_alloc : quiet.

Ltac quiet_steps :=
  repeat first
    [ apply quiet_bind; [|intros ?]
    | progress auto with quiet
    | match goal with
      | |- quiet (if ?b then _ else _) => destruct b
      | |- quiet (match ?x with _ => _ end) => destruct x
      end ].

Lemma quiet_save_method doc : quiet (save_method doc).
Proof. unfold save_method. quiet_steps. Qed.

Lemma quiet_tidySaveResults doc meta : quiet (tidySaveResults doc meta).
Proof. unfold tidySaveResults. quiet_steps. Qed.

Lemma quiet_all_defaults opts : quiet (all_defaults opts).
Proof. unfold all_defaults. quiet_steps. Qed.

Lemma quiet_simplifyAllDocSet opts r v : quiet (simplifyAllDocSet opts r v).
Proof. unfold simplifyAllDocSet, match_design. quiet_steps. Qed.

Lemma quiet_handleReceivedDocs opts docs : quiet (handleReceivedDocs opts docs).
Proof.
  unfold handleReceivedDocs. quiet_steps.
  apply quiet_foldM. intros. apply quiet_simplifyAllDocSet.
Qed.

Lemma quiet_remapIdRev doc : quiet (remapIdRev doc).
Proof. unfold remapIdRev. quiet_steps. Qed.

Lemma quiet_lodash_get v path : quiet (lodash_get v path).
Proof. intros w. by rewrite lodash_get_world. Qed.

Lemma quiet_tidyBulkGetDocs g : quiet (tidyBulkGetDocs g).
Proof.
  unfold tidyBulkGetDocs.
  apply quiet_bind; [apply quiet_lodash_get|]. intros doc. quiet_steps.
Qed.

Lemma quiet_mapBulkGetResultsToRoot r : quiet (mapBulkGetResultsToRoot r).
Proof.
  unfold mapBulkGetResultsToRoot. quiet_steps.
  apply quiet_mapM. intros. apply quiet_tidyBulkGetDocs.
Qed.

Lemma one_call_then_quiet {B} (db : backend) (c : db_call) (k : value → M B)
    (mine : db_call → Prop) w :
  mine c → (∀ a, quiet (k a)) →
  one_call_at_most mine (calls w) (calls (bind (call_db db c) k w).1).
Proof.
  intros Hc Hk. right. exists c. split; [done|].
  unfold bind, call_db. destruct (db c (heap w)) as [h' [a|e]]; simpl; [|done].
  by rewrite Hk.
Qed.

Lemma quiet_then_one_call {A B} (c : M A) (k : A → M B)
    (mine : db_call → Prop) w :
  quiet c →
  (∀ a w', one_call_at_most mine (calls w') (calls (k a w').1)) →
  one_call_at_most mine (calls w) (calls (bind c k w).1).
Proof.
  intros Hc Hk. unfold bind. specialize (Hc w).
  destruct (c w) as [w' [a|e]]; simpl in *.
  - rewrite <- Hc. apply Hk.
  - left. done.
Qed.

(** X1: Whatever they are given and whatever the backend answers, [all] and
    [bulkGet] contact the backend at most once, and then with [allDocs]
    and [bulkGet]: a read never writes. *)
Theorem reads_contact_backend_once (db : backend) (opts : value) (w : world) :
  one_call_at_most (λ c, ∃ p, c = CallAllDocs p)
    (calls w) (calls (all db opts w).1)
  ∧ one_call_at_most (λ c, ∃ p, c = CallBulkGet p)
      (calls w) (calls (bulkGet db opts w).1).
Proof.
  split.
  - unfold all. apply quiet_then_one_call; [apply quiet_all_defaults|].
    intros o w'. apply one_call_then_quiet; [by eexists|].
    intros docs. apply quiet_handleReceivedDocs.
  - unfold bulkGet. destruct (negb (truthy opts)); [by left|].
    apply quiet_then_one_call; [apply quiet_as_array|]. intros isarr w1.
    apply quiet_then_one_call; [destruct isarr; auto with quiet|].
    intros o w2.
    apply quiet_then_one_call; [apply quiet_get_field|]. intros docs w3.
    apply quiet_then_one_call; [apply quiet_as_array|]. intros [es|] w4;
      [|by left].
    apply quiet_then_one_call; [apply quiet_mapM, quiet_remapIdRev|].
    intros mapped w5.
    apply quiet_then_one_call; [apply quiet_alloc|]. intros arr w6.
    apply quiet_then_one_call; [apply quiet_set_field|]. intros [] w7.
    apply quiet_then_one_call; [apply quiet_get_field|]. intros docs' w8.
    apply quiet_then_one_call; [apply quiet_get_field|]. intros len w9.
    destruct (negb (truthy len)); [by left|].
    apply one_call_then_quiet; [by eexists|].
    intros r. apply quiet_mapBulkGetResultsToRoot.
Qed.

(** X2: [update] always makes exactly one backend call, a [put] of what it
    was given, whether or not that has an identifier; [save] makes at
    most one, a [put] or a [post] of what it was given. *)
Theorem writes_contact_backend_once (db : backend) (doc : value) (w : world) :
  calls (update db doc w).1 = (calls w ++ [CallPut doc])%list
  ∧ one_call_at_most (λ c, c = CallPut doc ∨ c = CallPost doc)
      (calls w) (calls (save db doc w).1).
Proof.
  split.
  - unfold update. unfold bind at 1, call_db.
    destruct (db (CallPut doc) (heap w)) as [h' [meta|e]]; simpl; [|done].
    assert (quiet (id <- get_field meta "id" ;;
                   set_field doc "_id" id ;;
                   rev <- get_field meta "rev" ;;
                   set_field doc "_rev" rev ;; ret doc)) as Hq
      by quiet_steps.
    by rewrite Hq.
  - unfold save. apply quiet_then_one_call; [apply quiet_save_method|].
    intros m w'. apply one_call_then_quiet.
    + destruct m; [by left|by right].
    + intros meta. apply quiet_tidySaveResults.
Qed.

(** ** [save] and [update]: failures, and saving again *)

(** X3: When the write is rejected, or acknowledged with [undefined] or
    [null], [save] and [update] fail (with the rejection, or a
    [TypeError]) and the heap is as the backend left it: the caller's
    document is not touched by this layer.  For [save] this is on a
    document without a field of its own named [hasOwnProperty]; on one that
    has such a field, holding data as every field of a document does,
    [save] fails with a [TypeError] before any write, and the world is
    unchanged. *)
Theorem failed_write_leaves_document (db : backend) (w : world) (d : loc)
    (o0 : obj) (h1 : gmap loc obj) :
  heap w !! d = Some o0 →
  let c := write_call (if id_is_set o0 then Put else Post) (VRef d) in
  (∀ e, fields o0 !! "hasOwnProperty" = None →
     db c (heap w) = (h1, Throw e) →
     save db (VRef d) w = (World h1 (calls w ++ [c])%list, Throw e))
  ∧ (∀ meta, fields o0 !! "hasOwnProperty" = None →
     db c (heap w) = (h1, Ok meta) → meta = VUndef ∨ meta = VNull →
     save db (VRef d) w = (World h1 (calls w ++ [c])%list, Throw TypeError))
  ∧ (is_Some (fields o0 !! "hasOwnProperty") →
     save db (VRef d) w = (w, Throw TypeError))
  ∧ (∀ e, db (CallPut (VRef d)) (heap w) = (h1, Throw e) →
     update db (VRef d) w =
       (World h1 (calls w ++ [CallPut (VRef d)])%list, Throw e))
  ∧ (∀ meta, db (CallPut (VRef d)) (heap w) = (h1, Ok meta) →
     meta = VUndef ∨ meta = VNull →
     update db (VRef d) w =
       (World h1 (calls w ++ [CallPut (VRef d)])%list, Throw TypeError)).
Proof.
  intros Hd c. repeat split.
  - intros e Hown Hdb. unfold save.
    rewrite (bind_ok _ _ _ _ _ (save_method_obj w d o0 Hd Hown)).
    unfold bind, call_db. fold c. by rewrite Hdb.
  - intros meta Hown Hdb Hmeta. unfold save.
    rewrite (bind_ok _ _ _ _ _ (save_method_obj w d o0 Hd Hown)).
    unfold bind at 1, call_db. fold c. rewrite Hdb.
    by destruct Hmeta as [-> | ->].
  - intros Hown. by apply (save_shadowed_method db w d o0).
  - intros e Hdb. unfold update, bind, call_db. by rewrite Hdb.
  - intros meta Hdb Hmeta. unfold update. unfold bind at 1, call_db.
    rewrite Hdb. by destruct Hmeta as [-> | ->].
Qed.

Lemma id_is_set_with_id_rev od om :
  id_is_set (with_id_rev od om) =
    truthy (field om "id") || bool_decide (field om "id" = VNum 0).
Proof.
  unfold id_is_set, with_id_rev; simpl.
  rewrite lookup_insert_ne by done. by rewrite lookup_insert_eq.
Qed.

(** X4: Saving the same object again: after a [save] that succeeded, the
    document carries the acknowledged [id] as its own [_id], so a second
    [save] is a [put] exactly when that [id] is truthy or the number 0;
    an acknowledgement without [id] leaves the next [save] a [post].  The
    document has no field of its own named [hasOwnProperty], neither when it
    is given nor when the backend has settled. *)
Theorem save_again_is_put (db : backend) (w : world) (d m : loc)
    (h1 : gmap loc obj) (o0 od om : obj) :
  heap w !! d = Some o0 → fields o0 !! "hasOwnProperty" = None → m ≠ d →
  db (write_call (if id_is_set o0 then Put else Post) (VRef d)) (heap w)
    = (h1, Ok (VRef m)) →
  h1 !! d = Some od → fields od !! "hasOwnProperty" = None →
  h1 !! m = Some om →
  ∃ w1,
    save db (VRef d) w = (w1, Ok (VRef d))
    ∧ save_method (VRef d) w1 =
        (w1, Ok (if truthy (field om "id") || bool_decide (field om "id" = VNum 0)
                 then Put else Post)).
Proof.
  intros Hd0 Hown0 Hne Hdb Hd Hown Hm. eexists. split.
  - unfold save.
    rewrite (bind_ok _ _ _ _ _ (save_method_obj w d o0 Hd0 Hown0)).
    unfold bind at 1, call_db. rewrite Hdb.
    by rewrite (tidySaveResults_in_place _ d m od om).
  - rewrite (save_method_obj _ d (with_id_rev od om)).
    + by rewrite id_is_set_with_id_rev.
    + simpl. apply lookup_insert_eq.
    + unfold with_id_rev; simpl. by rewrite !lookup_insert_ne.
Qed.

(** ** [bulkGet]: what is not a batch, and what becomes of the entries *)

(** X5: [bulkGet] fails before it touches anything when it is given no
    batch: a falsy value is reported as missing, and a truthy value that
    is neither an array nor an object whose [docs] is an array is
    reported as not being an array of filters.  The world is unchanged:
    no mutation, no backend call. *)
Theorem bulkGet_rejects_non_batch (db : backend) (opts : value) (w : world) :
  (truthy opts = false →
     bulkGet db opts w = (w, Throw (Error "missing bulkGet opts")))
  ∧ (truthy opts = true → (∀ l, opts ≠ VRef l) →
     bulkGet db opts w =
       (w, Throw (Error
         "bulkGet requires array of doc filters. please see couchdb bulkGet")))
  ∧ (∀ p op, opts = VRef p → heap w !! p = Some op → elems op = None →
     not_an_array (heap w) (field op "docs") →
     bulkGet db opts w =
       (w, Throw (Error
         "bulkGet requires array of doc filters. please see couchdb bulkGet"))).
Proof.
  repeat split.
  - intros Hf. unfold bulkGet. by rewrite Hf.
  - intros Ht Hnr. unfold bulkGet. rewrite Ht.
    destruct opts as [| |b|n| |s|l]; try done; by destruct (Hnr l).
  - intros p op -> Hp Hop Hdocs. unfold bulkGet. simpl.
    rewrite (bind_ok _ _ _ _ _ (as_array_obj w p op Hp)). rewrite Hop.
    rewrite (bind_ok _ _ w w (VRef p)) by done.
    rewrite (bind_ok _ _ w w (field op "docs")) by by apply get_field_obj.
    destruct (field op "docs") as [| |b|n| |s|l]; try done.
    destruct Hdocs as (o & Hl & Ho).
    rewrite (bind_ok _ _ _ _ _ (as_array_obj w l o Hl)). by rewrite Ho.
Qed.

Lemma remapped_native o :
  fields o !! "_id" = None → fields o !! "_rev" = None → remapped o = o.
Proof.
  intros Hid Hrev. unfold remapped, field. rewrite Hid, Hrev. simpl.
  rewrite (delete_id _ "_rev") by done. rewrite delete_id by done.
  by destruct o.
Qed.

(** X6: An entry of the batch that is written with the backend's own names,
    [id] and [rev], and has neither [_id] nor [_rev], reaches the backend
    exactly as the caller made it. *)
Theorem bulkGet_leaves_native_entries (db : backend) (w : world)
    (opts : value) (ls : list loc) :
  batch_request (heap w) opts ls →
  ∃ p q hb,
    bulkGet db opts w =
      (if bool_decide (ls = []) then ret []
       else r <- call_db db (CallBulkGet (VRef p)) ;; mapBulkGetResultsToRoot r)
        (World hb (calls w))
    ∧ sent_request (heap w) hb ls p q
    ∧ ∀ l o, l ∈ ls → heap w !! l = Some o →
        fields o !! "_id" = None → fields o !! "_rev" = None →
        hb !! l = Some o.
Proof.
  intros Hreq.
  destruct (bulkGet_request db w opts ls Hreq) as (p & q & hb & Hsent & Heq).
  exists p, q, hb. split; [done|]. split; [done|].
  intros l o Hl Ho Hid Hrev.
  destruct Hsent as (_ & _ & _ & Hls & _).
  rewrite Hls by done. rewrite Ho. simpl. by rewrite remapped_native.
Qed.

(** X7: How [bulkGet] and [save] compose: an object that has been an entry
    of a batch has lost its [_id], so in the heap of the request [save]
    would post it as a new document, whatever identifier it carried (the
    entry has no field of its own named [hasOwnProperty], or [save] would
    post nothing). *)
Theorem bulkGet_entry_would_be_posted (db : backend) (w : world)
    (opts : value) (ls : list loc) :
  batch_request (heap w) opts ls →
  ∃ p hb,
    bulkGet db opts w =
      (if bool_decide (ls = []) then ret []
       else r <- call_db db (CallBulkGet (VRef p)) ;; mapBulkGetResultsToRoot r)
        (World hb (calls w))
    ∧ ∀ l o cs, l ∈ ls → heap w !! l = Some o →
        fields o !! "hasOwnProperty" = None →
        save_method (VRef l) (World hb cs) = (World hb cs, Ok Post).
Proof.
  intros Hreq.
  destruct (bulkGet_request db w opts ls Hreq) as (p & q & hb & Hsent & Heq).
  exists p, hb. split; [done|].
  intros l o cs Hl Ho Hown.
  destruct Hsent as (_ & _ & _ & Hls & _).
  rewrite (save_method_obj (World hb cs) l (remapped o)).
  - unfold id_is_set.
    by destruct (remapped_fields o) as (-> & _).
  - simpl. rewrite Hls by done. by rewrite Ho.
  - destruct (remapped_fields o) as (_ & _ & _ & _ & Hother & _).
    by rewrite Hother.
Qed.



(** ** [all]: the options, the bodies, and a row that is no stub *)

Lemma all_defaults_object w o oo :
  heap w !! o = Some oo →
  all_defaults (VRef o) w =
    (World (<[o := defaulted oo]> (heap w)) (calls w), Ok (VRef o)).
Proof.
  intros Ho. unfold all_defaults, defaulted.
  rewrite (bind_ok _ _ w w (VRef o)) by done.
  rewrite (bind_ok _ _ w w (field oo "include_docs")) by by apply get_field_obj.
  assert (strict_eq (field oo "include_docs") VUndef
          = bool_decide (field oo "include_docs" = VUndef)) as ->
    by by destruct (field oo "include_docs").
  case_bool_decide.
  - by rewrite (bind_ok _ _ _ _ _ (set_field_obj w o oo _ _ Ho)).
  - rewrite (bind_ok _ _ w w tt) by done. unfold ret.
    rewrite insert_id by done. by destruct w.
Qed.

(** The keys of a boxed string are its indexes and [length]: the decimal
    text of a number does not start with a letter. *)
Lemma pretty_N_go_head (c : Ascii.ascii) x s s' :
  (∀ n, pretty_N_char n ≠ c) →
  s ≠ String c s' → pretty_N_go x s ≠ String c s'.
Proof.
  intros Hc. revert s. induction (N.lt_wf_0 x) as [x _ IH]; intros s ?.
  assert (x = 0 ∨ 0 < x)%N as [->|?] by lia.
  - by rewrite pretty_N_go_0.
  - rewrite pretty_N_go_step by done. apply IH.
    { by apply N.div_lt. }
    intros [= E _]. by apply (Hc (x `mod` 10)%N).
Qed.

Lemma pretty_nat_no_letter (i : nat) :
  pretty i ≠ "include_docs" ∧ pretty i ≠ "length".
Proof.
  unfold pretty, pretty_nat, pretty, pretty_N.
  case_decide; [done|].
  split; apply pretty_N_go_head; try done;
    intros n; unfold pretty_N_char; by repeat case_match.
Qed.

Lemma char_fields_index s : ∀ j i,
  char_fields j s !! pretty (j + i)%nat
  = (λ c, VStr (String c "")) <$> String.get i s.
Proof.
  induction s as [|c s IH]; intros j i; simpl; [done|].
  destruct i as [|i].
  - rewrite Nat.add_0_r. by rewrite lookup_insert_eq.
  - rewrite lookup_insert_ne by (intros ?%(inj pretty); lia).
    replace (j + S i)%nat with (S j + i)%nat by lia. apply IH.
Qed.

Lemma char_fields_other s k : ∀ j,
  (∀ i : nat, k ≠ pretty i) → char_fields j s !! k = None.
Proof.
  induction s as [|c s IH]; intros j Hk; simpl; [done|].
  rewrite lookup_insert_ne by (intros ?; by eapply Hk). by apply IH.
Qed.

Lemma boxed_without_include_docs v :
  fields (if truthy v then boxed v else plain ∅) !! "include_docs" = None.
Proof.
  destruct (truthy v); [|done]. destruct v; try done.
  cbn [boxed plain fields].
  rewrite lookup_insert_ne by done. apply (char_fields_other _ _ 0%nat).
  intros i E. by destruct (pretty_nat_no_letter i) as [[] _].
Qed.

Lemma all_defaults_fresh w opts :
  (∀ l, opts ≠ VRef l) →
  let box := if truthy opts then boxed opts else plain ∅ in
  ∃ p, heap w !! p = None ∧
    all_defaults opts w =
      (World (<[p := Obj (<["include_docs" := VBool true]> (fields box)) None]>
                (heap w))
             (calls w), Ok (VRef p)).
Proof.
  intros Hnr box. destruct (alloc_fresh box w) as (p & Hp & Halloc).
  exists p. split; [done|]. unfold all_defaults.
  assert ((match opts with
           | VRef _ => ret opts
           | _ => alloc (if truthy opts then boxed opts else plain ∅)
           end) w = alloc box w) as Hopts
    by (destruct opts; try done; by destruct (Hnr l)).
  rewrite (bind_ok _ _ _ _ _ (eq_trans Hopts Halloc)).
  set (w1 := World _ _).
  assert (elems box = None) as Hel.
  { unfold box. destruct (truthy opts); [|done]. by destruct opts. }
  rewrite (bind_ok _ _ w1 w1 VUndef).
  2:{ erewrite get_field_obj; [|apply lookup_insert_eq|done].
      unfold field, box. by rewrite boxed_without_include_docs. }
  simpl.
  erewrite bind_ok; last (apply set_field_obj; apply lookup_insert_eq).
  unfold ret; simpl. by rewrite insert_insert_eq, Hel.
Qed.

(** X9: [all] applies its defaults to the caller's own options object: the
    backend is called with that very reference, in a heap in which the
    object has [include_docs: true] when it had none (or [undefined]) and
    is otherwise as it was.  Given anything but an object, [all] makes a
    new options object with [include_docs: true]: it has no other field
    when the value given is falsy, a number or a boolean, and when it is a
    string that is not empty it has the characters of the string under
    their indexes, and its length. *)
Theorem all_defaults_caller_options (db : backend) (opts : value) (w : world) :
  (∀ o oo, opts = VRef o → heap w !! o = Some oo →
     all db opts w =
       (docs <- call_db db (CallAllDocs (VRef o)) ;;
        handleReceivedDocs (VRef o) docs)
         (World (<[o := defaulted oo]> (heap w)) (calls w))
     ∧ field (defaulted oo) "include_docs" =
         (if bool_decide (field oo "include_docs" = VUndef)
          then VBool true else field oo "include_docs")
     ∧ (∀ k, k ≠ "include_docs" →
          fields (defaulted oo) !! k = fields oo !! k))
  ∧ ((∀ l, opts ≠ VRef l) →
     ∃ p made,
       heap w !! p = None
       ∧ all db opts w =
           (docs <- call_db db (CallAllDocs (VRef p)) ;;
            handleReceivedDocs (VRef p) docs)
             (World (<[p := Obj made None]> (heap w)) (calls w))
       ∧ made !! "include_docs" = Some (VBool true)
       ∧ (truthy opts = false ∨ (∀ s, opts ≠ VStr s) →
          made = {[ "include_docs" := VBool true ]})
       ∧ (∀ s, opts = VStr s → s ≠ "" →
          made !! "length" = Some (VNum (Z.of_nat (String.length s)))
          ∧ ∀ i, made !! pretty i
                 = (λ c, VStr (String c "")) <$> String.get i s)).
Proof.
  split.
  - intros o oo -> Ho. split; [|split].
    + unfold all. by rewrite (bind_ok _ _ _ _ _ (all_defaults_object w o oo Ho)).
    + unfold defaulted. case_bool_decide; [|done].
      unfold field; simpl. by rewrite lookup_insert_eq.
    + intros k Hk. unfold defaulted. case_bool_decide; [|done].
      simpl. by rewrite lookup_insert_ne.
  - intros Hnr. destruct (all_defaults_fresh w opts Hnr) as (p & Hp & Hdef).
    eexists p, _. split; [done|]. split.
    { unfold all. by rewrite (bind_ok _ _ _ _ _ Hdef). }
    split; [apply lookup_insert_eq|]. split.
    + intros [Hf|Hns].
      * rewrite Hf. simpl. by rewrite insert_empty.
      * destruct (truthy opts); simpl; [|by rewrite insert_empty].
        destruct opts; simpl; try (by rewrite insert_empty).
        by destruct (Hns s).
    + intros s -> Hs.
      assert (truthy (VStr s) = true) as ->.
      { simpl. by destruct (String.eqb_spec s ""). }
      simpl. split.
      * rewrite lookup_insert_ne by done. apply lookup_insert_eq.
      * intros i.
        rewrite lookup_insert_ne
          by (intros E; by destruct (pretty_nat_no_letter i) as [[] _]).
        rewrite lookup_insert_ne
          by (intros E; by destruct (pretty_nat_no_letter i) as [_ []]).
        apply (char_fields_index s 0 i).
Qed.

Lemma filter_doc_kept_design h oo ds d :
  truthy (field oo "includeDesignDocs") = true →
  d ∈ List.filter (doc_kept h oo) ds → design_body h d.
Proof.
  intros Hidd Hd. apply list_elem_of_In, List.filter_In in Hd as [_ Hk].
  unfold doc_kept in Hk. rewrite Hidd in Hk.
  destruct d as [| | | | | |dl]; try done.
  destruct (h !! dl) as [dobj|] eqn:Hdl; [|done].
  destruct (field dobj "_id") as [| | | | |s|] eqn:Hid; try done.
  by exists dl, dobj, s.
Qed.

(** X10: [all] with the bodies ([include_docs] truthy once the defaults are
    applied, as it is when the caller says nothing): the rows are left
    alone and the call resolves to their bodies, in the order of the
    rows.  All of them are returned when [includeDesignDocs] is falsy,
    design documents included; when it is truthy, exactly those whose
    [_id] starts with [_design/] are. *)
Theorem all_with_bodies (db : backend) (opts : value) (w w0 : world) (o : loc)
    (oo1 od orows : obj) (h1 : gmap loc obj) (docs rows : loc)
    (ls : list loc) :
  all_defaults opts w = (w0, Ok (VRef o)) →
  db (CallAllDocs (VRef o)) (heap w0) = (h1, Ok (VRef docs)) →
  h1 !! o = Some oo1 → truthy (field oo1 "include_docs") = true →
  h1 !! docs = Some od → fields od !! "rows" = Some (VRef rows) →
  h1 !! rows = Some orows → elems orows = Some (VRef <$> ls) →
  (∀ l, l ∈ ls → ∃ ro, h1 !! l = Some ro ∧
     (truthy (field oo1 "includeDesignDocs") = true →
        has_string_id h1 (field ro "doc"))) →
  all db opts w =
    (World h1 (calls w ++ [CallAllDocs (VRef o)])%list,
     Ok (List.filter (doc_kept h1 oo1) (row_doc h1 <$> ls)))
  ∧ (truthy (field oo1 "includeDesignDocs") = false →
       List.filter (doc_kept h1 oo1) (row_doc h1 <$> ls) = row_doc h1 <$> ls)
  ∧ (truthy (field oo1 "includeDesignDocs") = true →
       ∀ d, d ∈ List.filter (doc_kept h1 oo1) (row_doc h1 <$> ls) ↔
            d ∈ row_doc h1 <$> ls ∧ design_body h1 d).
Proof.
  intros Hdef Hdb Ho1 Hinc Hdocs Hrows Horows Hes Hbodies.
  pose proof (quiet_all_defaults opts w) as Hq. rewrite Hdef in Hq. simpl in Hq.
  set (w1 := World h1 (calls w ++ [CallAllDocs (VRef o)])%list).
  destruct (handleReceivedDocs_with_docs w1 o oo1 docs od rows orows ls
              Ho1 Hinc Hdocs Hrows Horows Hes Hbodies) as [Hh Hall].
  split; [|split; [done|]].
  - unfold all. rewrite (bind_ok _ _ _ _ _ Hdef).
    unfold bind at 1, call_db. rewrite Hdb, Hq. exact Hh.
  - intros Hidd d. split.
    + intros Hd. split; [|by eapply filter_doc_kept_design].
      by apply list_elem_of_In, List.filter_In in Hd as [?%list_elem_of_In _].
    + intros [Hd (dl & dobj & s & -> & Hdl & Hid & Hre)].
      apply list_elem_of_In, List.filter_In. split; [by apply list_elem_of_In|].
      unfold doc_kept. by rewrite Hidd, Hdl, Hid.
Qed.

Lemma foldM_app {A B} (f : B → A → M B) (l1 l2 : list A) : ∀ r w,
  foldM f r (l1 ++ l2) w = (r' <- foldM f r l1 ;; foldM f r' l2) w.
Proof.
  induction l1 as [|x l1 IH]; intros r w; simpl; [done|].
  unfold bind. destruct (f r x w) as [w' [r'|e]]; [exact (IH r' w')|done].
Qed.

Lemma simplifyAllDocSet_without_value w o oo r l ro :
  heap w !! o = Some oo → truthy (field oo "include_docs") = false → o ≠ l →
  heap w !! l = Some ro → fields ro !! "value" = None →
  simplifyAllDocSet (VRef o) r (VRef l) w =
    (World (<[l := Obj (<["_id" := field ro "id"]> (fields ro)) (elems ro)]>
              (heap w)) (calls w),
     Throw TypeError).
Proof.
  intros Ho Hinc Hol Hl Hval. unfold simplifyAllDocSet.
  rewrite (bind_ok _ _ w w (field oo "include_docs")) by by apply get_field_obj.
  rewrite Hinc. rewrite (bind_ok _ _ w w (VRef l)) by done.
  rewrite (bind_ok _ _ w w (field oo "include_docs")) by by apply get_field_obj.
  rewrite Hinc. simpl negb. cbv iota.
  apply bind_throw.
  rewrite (bind_ok _ _ w w (field ro "id")) by by apply get_field_obj.
  rewrite (bind_ok _ _ _ _ _ (set_field_obj w l ro _ _ Hl)).
  set (w1 := World _ _).
  rewrite (bind_ok _ _ w1 w1 VUndef); [done|].
  erewrite get_field_obj; [|apply lookup_insert_eq|done].
  unfold field; simpl. rewrite lookup_insert_ne by done. by rewrite Hval.
Qed.

(** X11: [all({ include_docs: false })] on rows of which one has no [value]
    (as a row that reports an error has none): the call fails with a
    [TypeError] and returns nothing, the rows before it have been
    rewritten to [{ _id, _rev }] all the same, and the faulty row is left
    with an [_id] added to what it had. *)
Theorem all_without_docs_row_without_value (db : backend) (w : world)
    (o : loc) (oo oo1 od orows ro : obj) (h1 : gmap loc obj)
    (docs rows l : loc) (pre post : list loc) :
  heap w !! o = Some oo → fields oo !! "include_docs" = Some (VBool false) →
  db (CallAllDocs (VRef o)) (heap w) = (h1, Ok (VRef docs)) →
  h1 !! o = Some oo1 → truthy (field oo1 "include_docs") = false →
  h1 !! docs = Some od → fields od !! "rows" = Some (VRef rows) →
  h1 !! rows = Some orows →
  elems orows = Some (VRef <$> (pre ++ l :: post)%list) →
  o ∉ pre → NoDup pre →
  (∀ l', l' ∈ pre → ∃ ro' vo', stub_row h1 pre l' ro' vo' ∧
     (truthy (field oo1 "includeDesignDocs") = true →
        ∃ s, field ro' "id" = VStr s)) →
  l ∉ pre → o ≠ l → h1 !! l = Some ro → fields ro !! "value" = None →
  ∃ w',
    all db (VRef o) w = (w', Throw TypeError)
    ∧ heap w' !! l =
        Some (Obj (<["_id" := field ro "id"]> (fields ro)) (elems ro))
    ∧ (∀ l' ro' vo', l' ∈ pre → stub_row h1 pre l' ro' vo' →
         heap w' !! l' = Some (normalized ro' vo')).
Proof.
  intros Ho Hinc Hdb Ho1 Hinc1 Hdocs Hrows Horows Hes Hopre Hnd Hstubs
    Hlpre Hol Hl Hval.
  unfold all.
  rewrite (bind_ok _ _ _ _ _ (all_defaults_set w o oo _ Ho Hinc ltac:(done))).
  unfold bind at 1, call_db. rewrite Hdb.
  set (w1 := World _ _). unfold handleReceivedDocs.
  rewrite (bind_ok _ _ w1 w1 (VRef rows)).
  2:{ rewrite (get_field_obj w1 docs od) by done. unfold field. by rewrite Hrows. }
  rewrite (bind_ok _ _ _ _ _ (as_array_obj w1 rows orows Horows)). rewrite Hes.
  rewrite fmap_app, fmap_cons, foldM_app.
  destruct (foldM_stub_rows o oo1 pre w1 [] Ho1 Hinc1 Hopre Hnd Hstubs)
    as (w2 & Hfold & Hcalls & Hnorm & Hother).
  rewrite (bind_ok _ _ _ _ _ Hfold). cbn [foldM].
  assert (heap w2 !! o = Some oo1) as Ho2 by by rewrite Hother.
  assert (heap w2 !! l = Some ro) as Hl2 by by rewrite Hother.
  erewrite bind_throw;
    last by apply (simplifyAllDocSet_without_value w2 o oo1 _ l ro).
  eexists. split; [done|]. simpl. split; [apply lookup_insert_eq|].
  intros l' ro' vo' Hl' Hst. rewrite lookup_insert_ne.
  - by apply Hnorm.
  - by intros ->.
Qed.

(** ** [createIndicies]: what is never reported, and the order of names *)

(** X13: Whatever the backend answers, [createIndicies] makes exactly one
    index-creation call, and when it fails the failure is never one whose
    [status] is 409: a conflict is not reported to the caller. *)
Theorem createIndicies_never_reports_conflict (db : backend)
    (ind : indicies_arg) (w : world) :
  calls (createIndicies db ind w).1 =
    (calls w ++ [CallCreateIndex (unique (indicies_list ind))])%list
  ∧ ∀ w' e, createIndicies db ind w = (w', Throw e) →
      rejection_status (heap w') e ≠ Some (VNum 409).
Proof.
  unfold createIndicies, catch, call_db.
  set (c := CallCreateIndex _).
  destruct (db c (heap w)) as [h1 [v|e0]]; [split; [done|by intros ? ? [= _ ?]]|].
  set (w1 := World h1 _). unfold handleFailCreateIndicies.
  destruct e0 as [|msg|msg|v|]; try (split; [done|]; by intros ? ? [= <- <-]).
  destruct v as [| |b|n| |s|l]; try (split; [done|]; by intros ? ? [= <- <-]).
  unfold err_status, bind, get_field.
  destruct (heap w1 !! l) as [o|] eqn:Hl;
    [|split; [done|]; by intros ? ? [= <- <-]].
  assert (∀ st, (if negb (strict_eq st (VNum 409))
                 then throw (Thrown (VRef l)) else ret VUndef) w1
                = (w1, if bool_decide (st = VNum 409) then Ok VUndef
                       else Throw (Thrown (VRef l)))) as Hst.
  { intros st. rewrite strict_eq_num. by case_bool_decide. }
  assert (∀ st, field o "status" = st →
            calls ((w1, if bool_decide (st = VNum 409) then Ok VUndef
                        else Throw (Thrown (VRef l))).1) = calls w1
            ∧ ∀ w' e, (w1, if bool_decide (st = VNum 409) then Ok VUndef
                           else Throw (Thrown (VRef l))) = (w', Throw e) →
                rejection_status (heap w') e ≠ Some (VNum 409)) as Hres.
  { intros st Hfield. split; [done|]. intros w' e.
    case_bool_decide as H409; [done|]. intros [= <- <-].
    cbn [rejection_status]. rewrite Hl. simpl. congruence. }
  destruct (elems o);
    [destruct (String.eqb "status" "length") eqn:Heq; [done|]|];
    rewrite Hst; by apply Hres.
Qed.

Lemma baseUniq_sublist l : ∀ seen, baseUniq seen l `sublist_of` l.
Proof.
  induction l as [|x l IH]; intros seen; simpl; [done|].
  case_bool_decide; [apply sublist_cons, IH|apply sublist_skip, IH].
Qed.

Lemma baseUniq_NoDup_id l : ∀ seen,
  NoDup l → (∀ x, x ∈ l → x ∉ seen) → baseUniq seen l = l.
Proof.
  induction l as [|x l IH]; intros seen Hnd Hseen; simpl; [done|].
  apply NoDup_cons in Hnd as [Hx Hnd].
  rewrite bool_decide_eq_false_2 by (apply Hseen; by left).
  f_equal. apply IH; [done|]. intros y Hy [->|?]%elem_of_cons; [done|].
  by apply (Hseen y); [right|].
Qed.

Lemma baseUniq_snoc l x : ∀ seen,
  baseUniq seen (l ++ [x]) =
    (baseUniq seen l
     ++ if bool_decide (x ∈ seen ∨ x ∈ l) then [] else [x])%list.
Proof.
  induction l as [|y l IH]; intros seen; cbn [baseUniq app].
  - case_bool_decide as H1; case_bool_decide as H2; try done.
    + destruct H2. by left.
    + by destruct H2 as [?|?%elem_of_nil].
  - case_bool_decide as Hy; rewrite IH.
    + rewrite (bool_decide_ext (x ∈ seen ∨ x ∈ l) (x ∈ seen ∨ x ∈ y :: l));
        [done|].
      rewrite elem_of_cons.
      split; [intros [?|?]; auto|intros [?|[->|?]]; auto].
    + rewrite (bool_decide_ext (x ∈ y :: seen ∨ x ∈ l)
                 (x ∈ seen ∨ x ∈ y :: l)); [done|].
      rewrite !elem_of_cons.
      split; [intros [[->|?]|?]; auto|intros [?|[->|?]]; auto].
Qed.

Lemma quiet_handleFailCreateIndicies e : quiet (handleFailCreateIndicies e).
Proof. unfold handleFailCreateIndicies, err_status. quiet_steps. Qed.

Lemma createIndicies_logged (db : backend) ind w :
  calls (createIndicies db ind w).1 =
    (calls w ++ [CallCreateIndex (unique (indicies_list ind))])%list.
Proof.
  unfold createIndicies, catch, call_db.
  destruct (db _ (heap w)) as [h1 [v|e]]; [done|].
  by rewrite quiet_handleFailCreateIndicies.
Qed.

(** X14: The names of the index reach the backend in the caller's order, each
    at its first occurrence.  For no name the call carries none; and when
    the caller appends a name to the list, the call carries the same names
    as before, followed by that name if it is not in the list already.
    These two facts settle the names of the call for every list; so the
    names of the call are a sublist of the names given, and are the names
    given when these have no repetition. *)
Theorem createIndicies_keeps_order_of_names (db : backend) (w : world)
    (l : list string) (x : string) :
  ∃ fs,
    calls (createIndicies db (ManyIndicies l) w).1
      = (calls w ++ [CallCreateIndex fs])%list
    ∧ calls (createIndicies db (ManyIndicies (l ++ [x])) w).1
      = (calls w ++
         [CallCreateIndex (if bool_decide (x ∈ l) then fs else fs ++ [x])])%list
    ∧ calls (createIndicies db (ManyIndicies []) w).1
      = (calls w ++ [CallCreateIndex []])%list
    ∧ fs `sublist_of` l
    ∧ (NoDup l → fs = l).
Proof.
  exists (unique l). rewrite !createIndicies_logged. cbn [indicies_list].
  split; [done|]. split; [|split; [done|split]].
  - unfold unique. rewrite baseUniq_snoc.
    case_bool_decide as H1; case_bool_decide as H2.
    + by rewrite app_nil_r.
    + by destruct H1 as [?%elem_of_nil|?].
    + destruct H1. by right.
    + done.
  - apply baseUniq_sublist.
  - intros Hnd. apply baseUniq_NoDup_id; [done|]. by intros y _ ?%elem_of_nil.
Qed.

(** ** [destroy] and [deleteDB]: every store *)

Section DestroyEveryStore.

Import Lifecycle.
Local Close Scope string_scope.

Ltac destroy_cases s :=
  let em := fresh "em" in
  let Hem := fresh "Hem" in
  let Hlive := fresh "Hlive" in
  unfold destroy_trace, deleteDB_trace, destroy, deleteDB;
  destruct (syncEmitter s) as [em|] eqn:Hem;
    [destruct (is_live s) eqn:Hlive; destruct em|];
  simpl; rewrite ?run_quiescent by (by split).

(** X15: A live session whose handle emits [complete] inside [cancel()],
    the case the comment in [destroy] is written for: the listener is
    registered before the session is cancelled, so that [complete] is
    emitted and heard while [destroy] is still running, and [db.destroy()]
    is called after it, in a promise job, once [destroy] has returned. *)
Theorem destroy_live_session_order (s : store) (n : nat) :
  syncEmitter s = Some CompletesInCancel → is_live s = true →
  destroy_trace 0 s = [EvListen; EvCancel; EvComplete]
  ∧ destroy_trace (2 + n) s = [EvListen; EvCancel; EvComplete; EvDestroy].
Proof.
  intros Hem Hlive. unfold destroy_trace, destroy. rewrite Hem, Hlive.
  split; [reflexivity|]. simpl. by rewrite run_quiescent by (by split).
Qed.

(** X16: Whatever the store, once three steps of the loop have run
    [destroy] has called [db.destroy()] exactly once, and it has not
    called it before the first promise job; it has cancelled the session
    once if there is one, and listened for [complete] once if that session
    is live. *)
Theorem destroy_destroys_exactly_once (s : store) (n : nat) :
  occurrences EvDestroy (destroy_trace (3 + n) s) = 1%nat
  ∧ occurrences EvDestroy (destroy_trace 0 s) = 0%nat
  ∧ occurrences EvCancel (destroy_trace (3 + n) s) =
      match syncEmitter s with Some _ => 1%nat | None => 0%nat end
  ∧ occurrences EvListen (destroy_trace (3 + n) s) =
      match syncEmitter s with
      | Some _ => if is_live s then 1%nat else 0%nat
      | None => 0%nat
      end.
Proof.
  unfold destroy_trace. destroy_cases s; repeat split; reflexivity.
Qed.

(** X17: [deleteDB] calls [db.destroy()] at once and does nothing else,
    session or not; [destroy] does the same, one promise job later, on a
    store without a session, and the two differ on every store with one. *)
Theorem deleteDB_skips_the_session (s : store) (n : nat) :
  deleteDB_trace n s = [EvDestroy]
  ∧ (syncEmitter s = None → destroy_trace (1 + n) s = [EvDestroy])
  ∧ (destroy_trace (3 + n) s = deleteDB_trace (3 + n) s
     ↔ syncEmitter s = None).
Proof.
  split; [|split].
  - unfold deleteDB_trace, deleteDB. by rewrite run_quiescent by (by split).
  - intros Hem. unfold destroy_trace, destroy. rewrite Hem. simpl.
    by rewrite run_quiescent by (by split).
  - destroy_cases s; split; done.
Qed.

End DestroyEveryStore.

(** ** The further properties at concrete inputs *)

Lemma failed_write_leaves_document_witness :
  heap doc_with_zero_id !! 1%positive = Some (plain {[ "_id" := VNum 0 ]})
  ∧ save conflict_backend (VRef 1%positive) doc_with_zero_id =
      (World (<[ 5%positive := conflict_error ]> (heap doc_with_zero_id))
             [CallPut (VRef 1%positive)],
       Throw (Thrown (VRef 5%positive))).
Proof.
  assert (heap doc_with_zero_id !! 1%positive
            = Some (plain {[ "_id" := VNum 0 ]})) as Hd
    by (vm_compute; reflexivity).
  split; [exact Hd|].
  apply (proj1 (failed_write_leaves_document conflict_backend doc_with_zero_id
                  1%positive _ _ Hd));
    [vm_compute; reflexivity|reflexivity].
Defined.

Lemma save_again_is_put_witness :
  heap peanut_world !! 1%positive = Some (plain {[ "peanut" := VStr "butter" ]})
  ∧ ∃ w1,
      save ack_backend (VRef 1%positive) peanut_world = (w1, Ok (VRef 1%positive))
      ∧ calls w1 = [CallPost (VRef 1%positive)]
      ∧ save_method (VRef 1%positive) w1 = (w1, Ok Put).
Proof.
  assert (heap peanut_world !! 1%positive
            = Some (plain {[ "peanut" := VStr "butter" ]})) as Hd0
    by (vm_compute; reflexivity).
  split; [exact Hd0|].
  assert (<[2%positive := ack_meta]> (heap peanut_world) !! 1%positive
            = Some (plain {[ "peanut" := VStr "butter" ]})) as Hd
    by (vm_compute; reflexivity).
  assert (<[2%positive := ack_meta]> (heap peanut_world) !! 2%positive
            = Some ack_meta) as Hm
    by (vm_compute; reflexivity).
  assert (fields (plain {[ "peanut" := VStr "butter" ]}) !! "hasOwnProperty"
            = None) as Hown
    by (vm_compute; reflexivity).
  destruct (save_again_is_put ack_backend peanut_world 1%positive 2%positive
              _ _ _ _ Hd0 Hown ltac:(discriminate) eq_refl Hd Hown Hm)
    as (w1 & Hsave & Hmethod).
  assert (truthy (field ack_meta "id")
          || bool_decide (field ack_meta "id" = VNum 0) = true) as Hput
    by (vm_compute; reflexivity).
  rewrite Hput in Hmethod.
  exists w1. split; [exact Hsave|]. split; [|exact Hmethod].
  assert (calls (save ack_backend (VRef 1%positive) peanut_world).1
            = [CallPost (VRef 1%positive)]) as Hcalls
    by (vm_compute; reflexivity).
  rewrite Hsave in Hcalls. exact Hcalls.
Defined.

Lemma native_batch :
  batch_request (heap native_batch_world) (VRef 1%positive) [2%positive].
Proof.
  split.
  - intros l [->|[]%elem_of_nil]%elem_of_cons. by eexists.
  - left. exists 1%positive, (array [VRef 2%positive]).
    split; [reflexivity|]. split; [vm_compute; reflexivity|reflexivity].
Defined.

Lemma bulkGet_leaves_native_entries_witness :
  batch_request (heap native_batch_world) (VRef 1%positive) [2%positive]
  ∧ heap native_batch_world !! 2%positive
    = Some (plain {[ "id" := VStr "n"; "rev" := VStr "1-n" ]})
  ∧ ∃ p q hb,
      bulkGet canned_backend (VRef 1%positive) native_batch_world =
        (r <- call_db canned_backend (CallBulkGet (VRef p)) ;;
         mapBulkGetResultsToRoot r) (World hb [])
      ∧ sent_request (heap native_batch_world) hb [2%positive] p q
      ∧ hb !! 2%positive
        = Some (plain {[ "id" := VStr "n"; "rev" := VStr "1-n" ]}).
Proof.
  split; [exact native_batch|].
  assert (heap native_batch_world !! 2%positive
          = Some (plain {[ "id" := VStr "n"; "rev" := VStr "1-n" ]})) as Hentry
    by (vm_compute; reflexivity).
  split; [exact Hentry|].
  destruct (bulkGet_leaves_native_entries canned_backend native_batch_world
              (VRef 1%positive) [2%positive] native_batch)
    as (p & q & hb & Hrun & Hsent & Hnative).
  exists p, q, hb. split; [exact Hrun|]. split; [exact Hsent|].
  apply Hnative.
  - by left.
  - exact Hentry.
  - vm_compute; reflexivity.
  - vm_compute; reflexivity.
Defined.

Lemma bulkGet_entry_would_be_posted_witness :
  batch_request (heap two_revs_world) (VRef 1%positive)
    [2%positive; 3%positive]
  ∧ ∃ p hb,
      bulkGet canned_backend (VRef 1%positive) two_revs_world =
        (r <- call_db canned_backend (CallBulkGet (VRef p)) ;;
         mapBulkGetResultsToRoot r) (World hb [])
      ∧ save_method (VRef 2%positive) (World hb []) = (World hb [], Ok Post).
Proof.
  split; [exact two_revs_batch|].
  destruct (bulkGet_entry_would_be_posted canned_backend two_revs_world
              (VRef 1%positive) [2%positive; 3%positive] two_revs_batch)
    as (p & hb & Hrun & Hpost).
  exists p, hb. split; [exact Hrun|].
  apply (Hpost 2%positive
           (plain {[ "_id" := VStr "a"; "_rev" := VStr "1-gone" ]})).
  - by left.
  - vm_compute; reflexivity.
  - vm_compute; reflexivity.
Defined.


Lemma listing_rows_have_bodies l :
  l ∈ [12%positive; 13%positive] →
  ∃ ro, heap listing_defaulted !! l = Some ro ∧
    (truthy (field (plain {[ "include_docs" := VBool true ]})
               "includeDesignDocs") = true →
       has_string_id (heap listing_defaulted) (field ro "doc")).
Proof.
  intros [->|[->|[]%elem_of_nil]%elem_of_cons]%elem_of_cons;
    (eexists; split; [vm_compute; reflexivity|]);
    intros H; vm_compute in H; discriminate H.
Defined.

Lemma all_with_bodies_witness :
  all_defaults VUndef listing_world = (listing_defaulted, Ok (VRef 18%positive))
  ∧ all canned_backend VUndef listing_world =
      (World (heap listing_defaulted) [CallAllDocs (VRef 18%positive)],
       Ok (List.filter
             (doc_kept (heap listing_defaulted)
                (plain {[ "include_docs" := VBool true ]}))
             (row_doc (heap listing_defaulted)
                <$> [12%positive; 13%positive]))).
Proof.
  assert (all_defaults VUndef listing_world
            = (listing_defaulted, Ok (VRef 18%positive))) as Hdef
    by (vm_compute; reflexivity).
  split; [exact Hdef|].
  assert (heap listing_defaulted !! 18%positive
            = Some (plain {[ "include_docs" := VBool true ]})) as Ho
    by (vm_compute; reflexivity).
  assert (heap listing_defaulted !! 10%positive
            = Some (plain {[ "total_rows" := VNum 2; "offset" := VNum 0;
                             "rows" := VRef 11%positive ]})) as Hdocs
    by (vm_compute; reflexivity).
  assert (heap listing_defaulted !! 11%positive
            = Some (array [VRef 12%positive; VRef 13%positive])) as Hrows
    by (vm_compute; reflexivity).
  exact (proj1 (all_with_bodies canned_backend VUndef listing_world
                  listing_defaulted 18%positive _ _ _
                  (heap listing_defaulted) 10%positive 11%positive
                  [12%positive; 13%positive]
                  Hdef eq_refl Ho eq_refl Hdocs eq_refl Hrows eq_refl
                  listing_rows_have_bodies)).
Defined.

Lemma error_row_stub l :
  l ∈ [12%positive] →
  ∃ ro vo, stub_row error_row_heap [12%positive] l ro vo ∧
    (truthy (field no_docs_opts "includeDesignDocs") = true →
       ∃ s, field ro "id" = VStr s).
Proof.
  intros [->|[]%elem_of_nil]%elem_of_cons.
  exists stub_row_a, (plain {[ "rev" := VStr "1-a" ]}).
  split; [|intros H; vm_compute in H; discriminate H].
  split; [vm_compute; reflexivity|]. split; [vm_compute; reflexivity|].
  exists 17%positive. split; [vm_compute; reflexivity|].
  split; [|vm_compute; reflexivity].
  intros [?|[]%elem_of_nil]%elem_of_cons; discriminate.
Defined.

Lemma all_without_docs_row_without_value_witness :
  heap error_row_world !! 13%positive = Some error_row
  ∧ ∃ w',
      all canned_backend (VRef 20%positive) error_row_world
        = (w', Throw TypeError)
      ∧ heap w' !! 13%positive =
          Some (Obj (<["_id" := field error_row "id"]> (fields error_row))
                    (elems error_row)).
Proof.
  assert (heap error_row_world !! 13%positive = Some error_row) as Hl
    by (vm_compute; reflexivity).
  split; [exact Hl|].
  assert (heap error_row_world !! 20%positive = Some no_docs_opts) as Ho
    by (vm_compute; reflexivity).
  assert (error_row_heap !! 10%positive
            = Some (plain {[ "total_rows" := VNum 2; "offset" := VNum 0;
                             "rows" := VRef 11%positive ]})) as Hdocs
    by (vm_compute; reflexivity).
  assert (error_row_heap !! 11%positive
            = Some (array [VRef 12%positive; VRef 13%positive])) as Hrows
    by (vm_compute; reflexivity).
  assert (20%positive ∉ [12%positive]) as Hopre.
  { intros [?|[]%elem_of_nil]%elem_of_cons; discriminate. }
  assert (13%positive ∉ [12%positive]) as Hlpre.
  { intros [?|[]%elem_of_nil]%elem_of_cons; discriminate. }
  assert (NoDup [12%positive]) as Hnd.
  { constructor; [intros []%elem_of_nil|constructor]. }
  assert (fields error_row !! "value" = None) as Hval
    by (vm_compute; reflexivity).
  destruct (all_without_docs_row_without_value canned_backend error_row_world
              20%positive no_docs_opts no_docs_opts _ _ error_row
              error_row_heap 10%positive 11%positive 13%positive
              [12%positive] []
              Ho eq_refl eq_refl Ho eq_refl Hdocs eq_refl Hrows eq_refl
              Hopre Hnd error_row_stub Hlpre ltac:(discriminate) Hl Hval)
    as (w' & Hall & Hrow & _).
  exists w'. split; [exact Hall|exact Hrow].
Defined.

Lemma destroy_live_session_order_witness :
  Lifecycle.syncEmitter
    (Lifecycle.store_of Lifecycle.CompletesInCancel (VBool true))
    = Some Lifecycle.CompletesInCancel
  ∧ Lifecycle.destroy_trace 3
      (Lifecycle.store_of Lifecycle.CompletesInCancel (VBool true))
    = [Lifecycle.EvListen; Lifecycle.EvCancel; Lifecycle.EvComplete;
       Lifecycle.EvDestroy].
Proof.
  split; [reflexivity|].
  exact (proj2 (destroy_live_session_order
                  (Lifecycle.store_of Lifecycle.CompletesInCancel (VBool true))
                  1 eq_refl eq_refl)).
Defined.

(** ** [bulkGet]: the caller's array, and an entry that is no object *)

(** X19: Given [{ docs: array }], [bulkGet] puts a new array in the caller's
    object, holding the same references in the same order, and changes
    nothing else of that object; the array the caller made stays as it
    was, unless it is one of its own entries. *)
Theorem bulkGet_object_form_replaces_docs (db : backend) (w : world)
    (p a : loc) (op oa : obj) (ls : list loc) :
  heap w !! p = Some op → elems op = None →
  fields op !! "docs" = Some (VRef a) →
  heap w !! a = Some oa → elems oa = Some (VRef <$> ls) →
  (∀ l, l ∈ ls → is_Some (heap w !! l)) → p ∉ ls →
  ∃ q hb,
    bulkGet db (VRef p) w =
      (if bool_decide (ls = []) then ret []
       else r <- call_db db (CallBulkGet (VRef p)) ;; mapBulkGetResultsToRoot r)
        (World hb (calls w))
    ∧ heap w !! q = None
    ∧ hb !! q = Some (array (VRef <$> ls))
    ∧ hb !! p = Some (Obj (<["docs" := VRef q]> (fields op)) None)
    ∧ (a ∉ ls → hb !! a = Some oa).
Proof.
  intros Hp Hop Hdocs Ha Hes Hin Hpls.
  destruct (bulkGet_docs_object db w p op a oa ls Hp Hop Hdocs Ha Hes Hin Hpls)
    as (q & Hq & Heq).
  assert (p ≠ q) as Hpq by congruence.
  assert (a ≠ q) as Haq by congruence.
  assert (a ≠ p) as Hap by (intros ->; congruence).
  eexists q, _. split; [exact Heq|]. split; [done|].
  split; [rewrite lookup_insert_ne by done; apply lookup_insert_eq|].
  split; [apply lookup_insert_eq|].
  intros Hals. rewrite !lookup_insert_ne by done.
  by rewrite remap_all_lookup, bool_decide_eq_false_2.
Qed.

Lemma mapM_app {A B} (f : A → M B) (l1 l2 : list A) : ∀ w,
  mapM f (l1 ++ l2) w =
    (ys1 <- mapM f l1 ;; ys2 <- mapM f l2 ;; ret (ys1 ++ ys2)%list) w.
Proof.
  induction l1 as [|x l1 IH]; intros w; simpl.
  - unfold bind, ret. by destruct (mapM f l2 w) as [w' [ys|e]].
  - unfold bind, ret in *. destruct (f x w) as [w1 [y|e]]; [|done].
    rewrite IH.
    destruct (mapM f l1 w1) as [w2 [ys1|e]]; [|done].
    destruct (mapM f l2 w2) as [w3 [ys2|e]]; reflexivity.
Qed.

(** X20: A batch with an entry that is [undefined] or [null]: [bulkGet] fails
    with a [TypeError] without contacting the backend, but the entries
    before it have been rewritten already. *)
Theorem bulkGet_null_entry (db : backend) (w : world) (a : loc) (oa : obj)
    (pre : list loc) (bad : value) (post : list value) :
  heap w !! a = Some oa →
  elems oa = Some ((VRef <$> pre) ++ bad :: post)%list →
  bad = VUndef ∨ bad = VNull →
  (∀ l, l ∈ pre → is_Some (heap w !! l)) →
  ∃ w',
    bulkGet db (VRef a) w = (w', Throw TypeError)
    ∧ calls w' = calls w
    ∧ ∀ l o, l ∈ pre → heap w !! l = Some o →
        heap w' !! l = Some (remapped o).
Proof.
  intros Ha Hes Hbad Hin. unfold bulkGet. simpl.
  rewrite (bind_ok _ _ _ _ _ (as_array_obj w a oa Ha)). rewrite Hes.
  destruct (alloc_fresh (plain {[ "docs" := VRef a ]}) w) as (p & Hp & Hallocp).
  rewrite (bind_ok _ _ _ _ _ Hallocp).
  set (w1 := World _ _).
  assert (a ≠ p) as Hap by congruence.
  rewrite (bind_ok _ _ w1 w1 (VRef a)).
  2:{ rewrite (get_field_obj w1 p (plain {[ "docs" := VRef a ]}));
        [|apply lookup_insert_eq|done].
      unfold field; simpl. by rewrite lookup_singleton_eq. }
  rewrite (bind_ok _ _ w1 w1 (Some ((VRef <$> pre) ++ bad :: post)%list)).
  2:{ erewrite as_array_obj; [|simpl; by rewrite lookup_insert_ne]. by rewrite Hes. }
  assert (∀ l, l ∈ pre → is_Some (heap w1 !! l)) as Hin1.
  { intros l Hl. simpl. apply lookup_insert_is_Some'. right. by apply Hin. }
  eexists. split; [|split].
  - apply bind_throw. rewrite mapM_app.
    rewrite (bind_ok _ _ _ _ _ (mapM_remapIdRev pre w1 Hin1)).
    apply bind_throw. cbn [mapM]. apply bind_throw.
    unfold remapIdRev. apply bind_throw.
    by destruct Hbad as [-> | ->].
  - done.
  - intros l o Hl Ho. simpl.
    rewrite remap_all_lookup, bool_decide_eq_true_2 by done.
    rewrite lookup_insert_ne; [by rewrite Ho|].
    intros <-. congruence.
Qed.

(** ** [all]: a row without a body *)

Lemma simplifyAllDocSet_without_body w o oo r l ro :
  heap w !! o = Some oo → truthy (field oo "include_docs") = true →
  truthy (field oo "includeDesignDocs") = true →
  heap w !! l = Some ro → fields ro !! "doc" = None →
  simplifyAllDocSet (VRef o) r (VRef l) w = (w, Throw TypeError).
Proof.
  intros Ho Hinc Hidd Hl Hdoc. unfold simplifyAllDocSet.
  rewrite (bind_ok _ _ w w (field oo "include_docs")) by by apply get_field_obj.
  rewrite Hinc.
  rewrite (bind_ok _ _ w w VUndef).
  2:{ rewrite (get_field_obj w l ro) by done. unfold field. by rewrite Hdoc. }
  rewrite (bind_ok _ _ w w (field oo "include_docs")) by by apply get_field_obj.
  rewrite Hinc. simpl negb. cbv iota.
  rewrite (bind_ok _ _ w w tt) by done.
  rewrite (bind_ok _ _ w w (field oo "includeDesignDocs"))
    by by apply get_field_obj.
  rewrite Hidd. simpl.
  rewrite (bind_ok _ _ w w (field oo "includeDesignDocs"))
    by by apply get_field_obj.
  rewrite Hidd. by apply bind_throw.
Qed.

(** X12: With the bodies, a row that has none (as a row that reports an error
    has none) is handed out as [undefined] when [includeDesignDocs] is
    falsy, and makes the whole call fail with a [TypeError] when it is
    truthy; the heap is as the backend left it in both cases. *)
Theorem all_row_without_body (w : world) (o docs rows l : loc)
    (oo od orows ro : obj) (pre post : list loc) :
  heap w !! o = Some oo → truthy (field oo "include_docs") = true →
  heap w !! docs = Some od → fields od !! "rows" = Some (VRef rows) →
  heap w !! rows = Some orows →
  elems orows = Some (VRef <$> (pre ++ l :: post)%list) →
  heap w !! l = Some ro → fields ro !! "doc" = None →
  (∀ l', l' ∈ (pre ++ post)%list → ∃ ro', heap w !! l' = Some ro' ∧
     (truthy (field oo "includeDesignDocs") = true →
        has_string_id (heap w) (field ro' "doc"))) →
  handleReceivedDocs (VRef o) (VRef docs) w =
    (w, if truthy (field oo "includeDesignDocs") then Throw TypeError
        else Ok ((row_doc (heap w) <$> pre) ++ VUndef
                   :: (row_doc (heap w) <$> post))%list).
Proof.
  intros Ho Hinc Hdocs Hrows Horows Hes Hl Hdoc Hothers.
  unfold handleReceivedDocs.
  rewrite (bind_ok _ _ w w (VRef rows)).
  2:{ rewrite (get_field_obj w docs od) by done. unfold field. by rewrite Hrows. }
  rewrite (bind_ok _ _ _ _ _ (as_array_obj w rows orows Horows)). rewrite Hes.
  assert (∀ l', l' ∈ pre → ∃ ro', heap w !! l' = Some ro' ∧
            (truthy (field oo "includeDesignDocs") = true →
               has_string_id (heap w) (field ro' "doc"))) as Hpre
    by (intros l' Hl'; apply Hothers, elem_of_app; by left).
  pose proof (foldM_rows_with_doc o oo w pre [] Ho Hinc Hpre) as Hfpre.
  assert (truthy (field oo "includeDesignDocs") = false →
          foldM (simplifyAllDocSet (VRef o)) [] (VRef <$> (pre ++ l :: post)%list) w
          = (w, Ok ([] ++ List.filter (doc_kept (heap w) oo)
                            (row_doc (heap w) <$> (pre ++ l :: post)%list))%list))
    as Hfall.
  { intros Hidd. apply foldM_rows_with_doc; [done|done|].
    intros l' Hl'. apply elem_of_app in Hl' as [Hl'|[->|Hl']%elem_of_cons].
    - apply Hothers, elem_of_app. by left.
    - exists ro. split; [done|]. congruence.
    - apply Hothers, elem_of_app. by right. }
  destruct (truthy (field oo "includeDesignDocs")) eqn:Hidd.
  - rewrite fmap_app, fmap_cons, foldM_app.
    rewrite (bind_ok _ _ _ _ _ Hfpre).
    cbn [foldM]. apply bind_throw.
    by apply (simplifyAllDocSet_without_body w o oo _ l ro).
  - rewrite Hfall by done. f_equal. f_equal. simpl.
    assert (∀ ds, List.filter (doc_kept (heap w) oo) ds = ds) as Hkeep.
    { intros ds. unfold doc_kept. rewrite Hidd.
      induction ds as [|d ds IH]; simpl; [done|]. by rewrite IH. }
    rewrite Hkeep, fmap_app, fmap_cons. do 2 f_equal.
    unfold row_doc, field. by rewrite Hl, Hdoc.
Qed.

Lemma found_entries l : l ∈ [3%positive] → is_Some (heap found_world !! l).
Proof. intros [->|[]%elem_of_nil]%elem_of_cons. by eexists. Defined.

Lemma bulkGet_object_form_replaces_docs_witness :
  heap found_world !! 1%positive = Some (plain {[ "docs" := VRef 2%positive ]})
  ∧ ∃ q hb,
      bulkGet canned_backend (VRef 1%positive) found_world =
        (r <- call_db canned_backend (CallBulkGet (VRef 1%positive)) ;;
         mapBulkGetResultsToRoot r) (World hb [])
      ∧ heap found_world !! q = None
      ∧ hb !! q = Some (array [VRef 3%positive])
      ∧ hb !! 2%positive = Some (array [VRef 3%positive]).
Proof.
  assert (heap found_world !! 1%positive
            = Some (plain {[ "docs" := VRef 2%positive ]})) as Hp
    by (vm_compute; reflexivity).
  split; [exact Hp|].
  assert (heap found_world !! 2%positive = Some (array [VRef 3%positive])) as Ha
    by (vm_compute; reflexivity).
  assert (1%positive ∉ [3%positive]) as Hpls.
  { intros [?|[]%elem_of_nil]%elem_of_cons; discriminate. }
  assert (2%positive ∉ [3%positive]) as Hals.
  { intros [?|[]%elem_of_nil]%elem_of_cons; discriminate. }
  destruct (bulkGet_object_form_replaces_docs canned_backend found_world
              1%positive 2%positive _ _ [3%positive]
              Hp eq_refl ltac:(vm_compute; reflexivity) Ha eq_refl
              found_entries Hpls)
    as (q & hb & Hrun & Hq & Hbq & _ & Hba).
  exists q, hb. split; [exact Hrun|]. split; [exact Hq|].
  split; [exact Hbq|exact (Hba Hals)].
Defined.

Lemma null_entry_pre l : l ∈ [2%positive] → is_Some (heap null_entry_world !! l).
Proof. intros [->|[]%elem_of_nil]%elem_of_cons. by eexists. Defined.

Lemma bulkGet_null_entry_witness :
  heap null_entry_world !! 1%positive = Some (array [VRef 2%positive; VNull])
  ∧ ∃ w',
      bulkGet canned_backend (VRef 1%positive) null_entry_world
        = (w', Throw TypeError)
      ∧ calls w' = []
      ∧ heap w' !! 2%positive = Some (remapped (plain {[ "_id" := VStr "a" ]})).
Proof.
  assert (heap null_entry_world !! 1%positive
            = Some (array [VRef 2%positive; VNull])) as Ha
    by (vm_compute; reflexivity).
  split; [exact Ha|].
  destruct (bulkGet_null_entry canned_backend null_entry_world 1%positive _
              [2%positive] VNull [] Ha eq_refl ltac:(by right) null_entry_pre)
    as (w' & Hrun & Hcalls & Hpre).
  exists w'. split; [exact Hrun|]. split; [exact Hcalls|].
  apply Hpre; [by left|vm_compute; reflexivity].
Defined.

Lemma missing_body_others l' :
  l' ∈ ([12%positive] ++ [])%list →
  ∃ ro', heap missing_body_world !! l' = Some ro' ∧
    (truthy (field (plain {[ "include_docs" := VBool true ]})
               "includeDesignDocs") = true →
       has_string_id (heap missing_body_world) (field ro' "doc")).
Proof.
  intros [->|[]%elem_of_nil]%elem_of_cons.
  eexists. split; [vm_compute; reflexivity|].
  intros H; vm_compute in H; discriminate H.
Defined.

Lemma all_row_without_body_witness :
  heap missing_body_world !! 13%positive = Some error_row
  ∧ handleReceivedDocs (VRef 18%positive) (VRef 10%positive) missing_body_world
    = (missing_body_world, Ok [VRef 15%positive; VUndef]).
Proof.
  assert (heap missing_body_world !! 13%positive = Some error_row) as Hl
    by (vm_compute; reflexivity).
  split; [exact Hl|].
  assert (heap missing_body_world !! 18%positive
            = Some (plain {[ "include_docs" := VBool true ]})) as Ho
    by (vm_compute; reflexivity).
  assert (heap missing_body_world !! 10%positive
            = Some (plain {[ "rows" := VRef 11%positive ]})) as Hdocs
    by (vm_compute; reflexivity).
  assert (heap missing_body_world !! 11%positive
            = Some (array [VRef 12%positive; VRef 13%positive])) as Hrows
    by (vm_compute; reflexivity).
  pose proof (all_row_without_body missing_body_world 18%positive 10%positive
                11%positive 13%positive _ _ _ _ [12%positive] []
                Ho eq_refl Hdocs ltac:(vm_compute; reflexivity) Hrows eq_refl
                Hl ltac:(vm_compute; reflexivity) missing_body_others) as H.
  match type of H with
  | _ = (_, ?r) =>
      assert (r = Ok [VRef 15%positive; VUndef]) as Hr
        by (vm_compute; reflexivity);
      rewrite Hr in H
  end.
  exact H.
Defined.
